(** * scripts/gantt.py: the six-week MVP Gantt chart script

    A shallow embedding of the script: the task table, the colour map, the
    loops that add bar traces, milestone markers and dependency arrows to a
    plotly figure, the layout update and the two image exports.

    The integers of the table are [Z].  The floats of the script ([0.5],
    [2.5], [4.5], [6.5], [7], and every [n - 0.5] the loops compute from the
    integers of the table) are rationals [Q], compared with [==].  In the
    code the columns of the frame are int64 and the results binary64: the
    sum of two weeks wraps beyond 2^63 and [n - 0.5] is rounded from 2^52
    on.  The arithmetic of the embedding is the arithmetic of the code on
    the rows of [in_exact_range], among them the rows of the script; what
    is stated for every table is stated of these rows.  Decimal literals
    that are only stored ([0.7], [1.05]) are the rationals they denote.  A
    dict is a [gmap], the set [legend_added] a [gset], a failing dict lookup
    raises [KeyError]. *)

From Stdlib Require Import ZArith QArith.
From stdpp Require Import gmap strings list fin_maps.

Local Open Scope Z_scope.
Local Open Scope string_scope.
Local Open Scope list_scope.

#[local] Set Warnings "-clear-no-such-hyp".

(** ** Exceptions and the two monads of the script *)

Inductive Exn :=
  | KeyError (key : string)
  | IndexError
  | ValueError (msg : string)
  | OSError (msg : string).

(** The outcome of code that may raise. *)
Inductive Res (A : Type) :=
  | Ok (a : A)
  | Raise (e : Exn).
Arguments Ok {A} a.
Arguments Raise {A} e.

#[global] Instance Res_ret : MRet Res := fun A a => Ok a.
#[global] Instance Res_bind : MBind Res := fun A B f m =>
  match m with
  | Ok a => f a
  | Raise e => Raise e
  end.

(** [d[k]] on a dict. *)
Definition getitem {V} (d : gmap string V) (k : string) : Res V :=
  match d !! k with
  | Some v => Ok v
  | None => Raise (KeyError k)
  end.

(** A [for] loop whose body may raise, threading the state it mutates. *)
Fixpoint for_each {A S : Type} (body : A → S → Res S) (l : list A) (s : S)
  : Res S :=
  match l with
  | [] => mret s
  | a :: rest => s' ← body a s; for_each body rest s'
  end.

(** ** The plotly objects the script builds *)

Record Bar := mkBar {
  bar_x : list Z;
  bar_y : list string;
  bar_orientation : string;
  bar_marker_color : string;
  bar_name : string;
  bar_legendgroup : string;
  bar_showlegend : bool;
  bar_width : Q;
  bar_base : Q;
  bar_cliponaxis : option bool
}.

Record Marker := mkMarker {
  marker_symbol : string;
  marker_size : Z;
  marker_color : string;
  marker_line_color : string;
  marker_line_width : Z
}.

Record Scatter := mkScatter {
  sc_x : list Q;
  sc_y : list Z;
  sc_mode : string;
  sc_marker : Marker;
  sc_text : string;
  sc_textposition : string;
  sc_textfont_size : Z;
  sc_textfont_color : string;
  sc_showlegend : bool;
  sc_name : string;
  sc_cliponaxis : option bool
}.

Inductive Trace :=
  | TBar (b : Bar)
  | TScatter (s : Scatter).

Record Annotation := mkAnnotation {
  an_x : Q;
  an_y : Z;
  an_ax : Q;
  an_ay : Z;
  an_arrowhead : Z;
  an_arrowsize : Z;
  an_arrowwidth : Z;
  an_arrowcolor : string;
  an_opacity : Q;
  an_axref : option string;
  an_ayref : option string
}.

Record XAxis := mkXAxis {
  xaxis_title : string;
  xaxis_tickmode : string;
  xaxis_tickvals : list Z;
  xaxis_ticktext : list string;
  xaxis_range : Q * Q
}.

Record YAxis := mkYAxis {
  yaxis_title : string;
  yaxis_categoryorder : string;
  yaxis_categoryarray : list string
}.

Record Legend := mkLegend {
  legend_orientation : string;
  legend_yanchor : string;
  legend_y : Q;
  legend_xanchor : string;
  legend_x : Q
}.

Record Layout := mkLayout {
  layout_title : option string;
  layout_xaxis : option XAxis;
  layout_yaxis : option YAxis;
  layout_barmode : option string;
  layout_legend : option Legend;
  layout_annotations : list Annotation
}.

Record Figure := mkFigure {
  data : list Trace;
  layout : Layout
}.

(** [go.Figure()] *)
Definition Figure_new : Figure :=
  mkFigure [] (mkLayout None None None None None []).

(** [trace.name], [trace.showlegend] and the assignment
    [trace.showlegend = v], on either kind of trace. *)
Definition trace_name (t : Trace) : string :=
  match t with
  | TBar b => bar_name b
  | TScatter s => sc_name s
  end.

Definition trace_showlegend (t : Trace) : bool :=
  match t with
  | TBar b => bar_showlegend b
  | TScatter s => sc_showlegend s
  end.

Definition set_showlegend (v : bool) (t : Trace) : Trace :=
  match t with
  | TBar b =>
      TBar (mkBar (bar_x b) (bar_y b) (bar_orientation b) (bar_marker_color b)
                  (bar_name b) (bar_legendgroup b) v (bar_width b) (bar_base b)
                  (bar_cliponaxis b))
  | TScatter s =>
      TScatter (mkScatter (sc_x s) (sc_y s) (sc_mode s) (sc_marker s) (sc_text s)
                          (sc_textposition s) (sc_textfont_size s)
                          (sc_textfont_color s) v (sc_name s) (sc_cliponaxis s))
  end.

Definition set_cliponaxis (v : bool) (t : Trace) : Trace :=
  match t with
  | TBar b =>
      TBar (mkBar (bar_x b) (bar_y b) (bar_orientation b) (bar_marker_color b)
                  (bar_name b) (bar_legendgroup b) (bar_showlegend b)
                  (bar_width b) (bar_base b) (Some v))
  | TScatter s =>
      TScatter (mkScatter (sc_x s) (sc_y s) (sc_mode s) (sc_marker s) (sc_text s)
                          (sc_textposition s) (sc_textfont_size s)
                          (sc_textfont_color s) (sc_showlegend s) (sc_name s)
                          (Some v))
  end.

(** [fig.add_trace(t)] appends to [fig.data]. *)
Definition add_trace (t : Trace) (fig : Figure) : Figure :=
  mkFigure (data fig ++ [t]) (layout fig).

Definition set_annotations (l : list Annotation) (lay : Layout) : Layout :=
  mkLayout (layout_title lay) (layout_xaxis lay) (layout_yaxis lay)
           (layout_barmode lay) (layout_legend lay) l.

(** [fig.add_annotation(...)] appends to [fig.layout.annotations]. *)
Definition add_annotation (a : Annotation) (fig : Figure) : Figure :=
  mkFigure (data fig)
           (set_annotations (layout_annotations (layout fig) ++ [a]) (layout fig)).

(** ** The task table and the colour map *)

(** A row of [tasks_data]; [df = pd.DataFrame(tasks_data)] keeps the rows in
    order, so the frame is the list of its rows. *)
Record TaskRow := mkTask {
  Task : string;
  Start_Week : Z;
  Duration : Z;
  Type_ : string;
  Description : string
}.

Definition tasks_data : list TaskRow :=
  [ mkTask "Village Render" 1 1 "Frontend" "Phaser.js setup";
    mkTask "RPG Dialogue" 2 1 "Frontend" "UI panel system";
    mkTask "MCP Integration" 3 1 "Backend" "Real agents";
    mkTask "Bug Bot System" 4 1 "Backend" "Probot app";
    mkTask "Performance" 5 1 "DevOps" "Optimization";
    mkTask "Test & Launch" 6 1 "Testing" "QA & deploy" ].

Definition df : list TaskRow := tasks_data.

Definition color_map : gmap string string :=
  <["Testing" := "#944454"]>
  (<["DevOps" := "#D2BA4C"]>
  (<["Backend" := "#1FB8CD"]>
  (<["Frontend" := "#2E8B57"]> ∅))).

(** ** The bar loop *)

Definition half : Q := 1 # 2.

(** The [go.Bar(...)] of one row; [color_map[row['Type']]] may raise.  The
    base is the rational [Start_Week - 1/2], which is the float of the code
    on the rows of [in_exact_range]. *)
Definition bar_of_row (row : TaskRow) : Res Bar :=
  c ← getitem color_map (Type_ row);
  mret (mkBar [Duration row] [Task row] "h" c (Type_ row) (Type_ row) true
              (1 # 2) (inject_Z (Start_Week row) - half)%Q None).

(** [for _, row in df.iterrows(): fig.add_trace(go.Bar(...))] *)
Definition bar_step (row : TaskRow) (fig : Figure) : Res Figure :=
  b ← bar_of_row row;
  mret (add_trace (TBar b) fig).

Definition bar_loop (rows : list TaskRow) (fig : Figure) : Res Figure :=
  for_each bar_step rows fig.

(** ** Removing duplicate legend entries *)

(** [for trace in fig.data: ...], with [legend_added] threaded along; the
    assignment [trace.showlegend = False] updates the trace in place. *)
Fixpoint legend_pass (legend_added : gset string) (traces : list Trace)
  : list Trace :=
  match traces with
  | [] => []
  | trace :: rest =>
      if decide (trace_name trace ∈ legend_added)
      then set_showlegend false trace :: legend_pass legend_added rest
      else trace :: legend_pass ({[trace_name trace]} ∪ legend_added) rest
  end.

Definition dedupe_legend (fig : Figure) : Figure :=
  mkFigure (legend_pass ∅ (data fig)) (layout fig).

(** ** Milestone diamonds *)

Record Milestone := mkMilestone {
  week : Q;
  task : string;
  label : string
}.

Definition milestones : list Milestone :=
  [ mkMilestone (5 # 2) "RPG Dialogue" "Core UI Done";
    mkMilestone (9 # 2) "Bug Bot System" "Full Integr'n";
    mkMilestone (13 # 2) "Test & Launch" "MVP Ready" ].

(** [enumerate(l, start)] *)
Fixpoint enumerate_from {A} (start : nat) (l : list A) : list (nat * A) :=
  match l with
  | [] => []
  | x :: rest => (start, x) :: enumerate_from (S start) rest
  end.

Definition enumerate {A} (l : list A) : list (nat * A) := enumerate_from 0 l.

(** [df['Task']]: the frame built from an empty list of dicts has no column
    at all, and the lookup of the column raises. *)
Definition df_getitem_Task (rows : list TaskRow) : Res (list string) :=
  match rows with
  | [] => Raise (KeyError "Task")
  | _ :: _ => Ok (Task <$> rows)
  end.

(** [{task: i for i, task in enumerate(df['Task'])}], on a frame that has the
    column: a later row with the same name overwrites the index of an
    earlier one. *)
Definition task_positions (rows : list TaskRow) : gmap string Z :=
  foldl (fun d it => <[it.2 := Z.of_nat it.1]> d) ∅ (enumerate (Task <$> rows)).

(** Line 65 as a statement: the column is looked up, which may raise, and
    then the comprehension runs over it. *)
Definition make_task_positions (rows : list TaskRow) : Res (gmap string Z) :=
  column ← df_getitem_Task rows;
  mret (foldl (fun d it => <[it.2 := Z.of_nat it.1]> d) ∅ (enumerate column)).

(** The [go.Scatter(...)] of one milestone;
    [task_positions[milestone['task']]] may raise. *)
Definition scatter_of_milestone (positions : gmap string Z) (milestone : Milestone)
  : Res Scatter :=
  y_pos ← getitem positions (task milestone);
  mret (mkScatter [week milestone] [y_pos] "markers+text"
                  (mkMarker "diamond" 12 "#DB4545" "black" 1)
                  (label milestone) "top center" 10 "black" false "Milestone"
                  None).

Definition milestone_step (positions : gmap string Z) (milestone : Milestone)
    (fig : Figure) : Res Figure :=
  s ← scatter_of_milestone positions milestone;
  mret (add_trace (TScatter s) fig).

Definition milestone_loop (positions : gmap string Z) (ms : list Milestone)
    (fig : Figure) : Res Figure :=
  for_each (milestone_step positions) ms fig.

(** ** Dependency arrows *)

(** [df.iloc[i]] for a non-negative [i]. *)
Definition iloc (rows : list TaskRow) (i : nat) : Res TaskRow :=
  match rows !! i with
  | Some row => Ok row
  | None => Raise IndexError
  end.

(** The [fig.add_annotation(...)] of one pair of rows.  The call passes
    neither [axref] nor [ayref]: both stay unset. *)
Definition arrow (i : nat) (current_task next_task : TaskRow) : Annotation :=
  mkAnnotation (inject_Z (Start_Week next_task) - half)%Q
               (Z.of_nat i + 1)
               (inject_Z (Start_Week current_task + Duration current_task) - half)%Q
               (Z.of_nat i)
               2 1 2 "gray" (7 # 10) None None.

Definition arrow_step (rows : list TaskRow) (i : nat) (fig : Figure)
  : Res Figure :=
  current_task ← iloc rows i;
  next_task ← iloc rows (i + 1);
  mret (add_annotation (arrow i current_task next_task) fig).

(** [for i in range(len(df) - 1): ...]; [range] of a negative number is
    empty, as is [seq 0 (0 - 1)]. *)
Definition arrow_loop (rows : list TaskRow) (fig : Figure) : Res Figure :=
  for_each (arrow_step rows) (seq 0 (length rows - 1)) fig.

(** ** Layout *)

(** [fig.update_layout(...)]; [df['Task']] is looked up again here, after
    line 65 has found the column. *)
Definition update_layout (rows : list TaskRow) (fig : Figure) : Figure :=
  mkFigure (data fig)
    (mkLayout
       (Some "6-Week MVP Development Plan")
       (Some (mkXAxis "Timeline" "array" [1; 2; 3; 4; 5; 6]
                      ["Week 1"; "Week 2"; "Week 3"; "Week 4"; "Week 5"; "Week 6"]
                      (1 # 2, 7 # 1)%Q))
       (Some (mkYAxis "Dev Tracks" "array" (reverse (Task <$> rows))))
       (Some "overlay")
       (Some (mkLegend "h" "bottom" (105 # 100) "center" (1 # 2)))
       (layout_annotations (layout fig))).

(** [fig.update_traces(cliponaxis=False)] *)
Definition update_traces_cliponaxis (v : bool) (fig : Figure) : Figure :=
  mkFigure (set_cliponaxis v <$> data fig) (layout fig).

(** The figure as it stands when the export starts. *)
Definition build_figure (rows : list TaskRow) (ms : list Milestone) : Res Figure :=
  fig ← bar_loop rows Figure_new;
  positions ← make_task_positions rows;
  fig ← milestone_loop positions ms (dedupe_legend fig);
  fig ← arrow_loop rows fig;
  mret (update_traces_cliponaxis false (update_layout rows fig)).

(** On a category axis ordered by [categoryarray], the categories are
    numbered from zero in the order of that array: the row of a task in the
    chart is the index of its name there. *)
Definition category_row (fig : Figure) (name : string) : option nat :=
  yaxis ← layout_yaxis (layout fig);
  fst <$> list_find (fun c => c = name) (yaxis_categoryarray yaxis).

(** ** Export *)

(** What the process gets from its environment. *)
Record Process := mkProcess {
  argv : list string;
  environ : gmap string string
}.

Inductive Event :=
  | FileWrite (path : string)
  | Stdout (line : string).

(** Code that may raise and has effects on the outside, logged in order. *)
Definition IO (A : Type) : Type := list Event → Res A * list Event.

Definition IO_bind {A B} (m : IO A) (f : A → IO B) : IO B :=
  fun log =>
    match m log with
    | (Ok a, log') => f a log'
    | (Raise e, log') => (Raise e, log')
    end.

Definition IO_lift {A} (r : Res A) : IO A := fun log => (r, log).

Definition print (line : string) : IO unit :=
  fun log => (Ok tt, log ++ [Stdout line]).

Section Backend.

(** The rendering backend and the file system: whether exporting [fig] to
    [file] in [format] fails, and with which exception. *)
Variable kaleido : Figure → string → option string → option Exn.

(** [fig.write_image(file, format=format)] *)
Definition write_image (fig : Figure) (file : string) (format : option string)
  : IO unit :=
  fun log =>
    match kaleido fig file format with
    | Some e => (Raise e, log)
    | None => (Ok tt, log ++ [FileWrite file])
    end.

(** The whole script, over any table and milestones. *)
Definition script (proc : Process) (rows : list TaskRow) (ms : list Milestone)
  : IO unit :=
  IO_bind (IO_lift (build_figure rows ms)) (fun fig =>
  IO_bind (write_image fig "gantt_chart.png" None) (fun _ =>
  IO_bind (write_image fig "gantt_chart.svg" (Some "svg")) (fun _ =>
  print "Saved gantt_chart.png and gantt_chart.svg"))).

(** The script as it is, started with nothing done yet. *)
Definition main (proc : Process) : Res unit * list Event :=
  script proc tasks_data milestones [].

End Backend.

(** The horizontal extent of the bars of a trace: plotly draws one bar per
    element of [x], from [base] to [base + x]. *)
Definition bar_span (b : Bar) : list (Q * Q) :=
  (fun x => (bar_base b, bar_base b + inject_Z x)%Q) <$> bar_x b.

(** The figure after [fig.add_annotation] for each element of [l]. *)
Definition add_annotations (l : list Annotation) (fig : Figure) : Figure :=
  mkFigure (data fig)
           (set_annotations (layout_annotations (layout fig) ++ l) (layout fig)).

(** The bar traces and the marker traces of a figure, in figure order. *)
Definition bars_of (traces : list Trace) : list Bar :=
  omap (fun t => match t with TBar b => Some b | TScatter _ => None end) traces.

Definition scatters_of (traces : list Trace) : list Scatter :=
  omap (fun t => match t with TScatter s => Some s | TBar _ => None end) traces.

(** The dict of [task_positions] built from [d] on, with the indices counted
    from [k]: the state of the comprehension part of the way through. *)
Definition positions_from (d : gmap string Z) (k : nat) (names : list string)
  : gmap string Z :=
  foldl (fun d it => <[it.2 := Z.of_nat it.1]> d) d (enumerate_from k names).

(** ** Schedules *)

(** Each row starts where the row before it ends. *)
Fixpoint chained (rows : list TaskRow) : Prop :=
  match rows with
  | [] => True
  | cur :: rest =>
      match rest with
      | [] => True
      | next :: _ =>
          Start_Week next = Start_Week cur + Duration cur ∧ chained rest
      end
  end.

(** A schedule without gaps, from week [first_week] up to and including week
    [last_week], the last week its last row covers. *)
Definition contiguous (first_week last_week : Z) (rows : list TaskRow) : Prop :=
  (∃ row, head rows = Some row ∧ Start_Week row = first_week) ∧
  chained rows ∧
  (∃ row, last rows = Some row ∧
          Start_Week row + Duration row - 1 = last_week).

(** ** Views of the finished figure *)

(** Where plotly draws the tail of an arrow, along x.  With [axref] unset,
    or set to "pixel", which is its default, [ax] is an offset in pixels
    from the head; with [axref] set to an axis, [ax] is a coordinate on that
    axis. *)
Inductive Tail :=
  | TailAt (coordinate : Q)
  | TailOffsetPx (head : Q) (pixels : Q).

Definition arrow_tail_x (a : Annotation) : Tail :=
  match an_axref a with
  | None => TailOffsetPx (an_x a) (an_ax a)
  | Some ref =>
      if decide (ref = "pixel") then TailOffsetPx (an_x a) (an_ax a)
      else TailAt (an_ax a)
  end.

(** The rows whose weeks the code computes exactly: no int64 sum wraps and
    every [n - 0.5] is a binary64 number. *)
Definition in_exact_range (row : TaskRow) : Prop :=
  (Z.abs (Start_Week row) ≤ 2 ^ 50 ∧ Z.abs (Duration row) ≤ 2 ^ 50)%Z.

(** The names of the legend entries, in figure order: plotly gives an entry
    to each trace whose [showlegend] is True. *)
Definition legend_entries (traces : list Trace) : list string :=
  trace_name <$> filter (fun t => trace_showlegend t = true) traces.

(** The arrows of the adjacent pairs of [rows], the first pair numbered
    [i]: the dependency arrows written by recursion on the table instead of
    by index. *)
Fixpoint adjacent_arrows (i : nat) (rows : list TaskRow) : list Annotation :=
  match rows with
  | [] => []
  | current_task :: rest =>
      match rest with
      | [] => []
      | next_task :: _ =>
          arrow i current_task next_task :: adjacent_arrows (S i) rest
      end
  end.

(** * Properties *)

Ltac res_simpl :=
  unfold mbind, mret, Res_bind, Res_ret in *; simpl in *.

(** ** Loops *)

Lemma for_each_app {A S} (body : A → S → Res S) l1 l2 s :
  for_each body (l1 ++ l2) s = s' ← for_each body l1 s; for_each body l2 s'.
Proof.
  revert s. induction l1 as [|a l1 IH]; intros s; simpl; [done|].
  res_simpl. destruct (body a s); [apply IH | done].
Qed.

Lemma for_each_cons {A S} (body : A → S → Res S) a l s :
  for_each body (a :: l) s = s' ← body a s; for_each body l s'.
Proof. done. Qed.

(** The first iteration that raises ends the loop with its exception. *)
Lemma for_each_raise {A S} (body : A → S → Res S) l1 a l2 s s1 e :
  for_each body l1 s = Ok s1 → body a s1 = Raise e →
  for_each body (l1 ++ a :: l2) s = Raise e.
Proof.
  intros H1 Ha. rewrite for_each_app, H1. res_simpl. by rewrite Ha.
Qed.

(** ** The bar loop *)

Lemma bar_of_row_Ok row b :
  bar_of_row row = Ok b ↔
  ∃ c, color_map !! Type_ row = Some c ∧
       b = mkBar [Duration row] [Task row] "h" c (Type_ row) (Type_ row) true
                 (1 # 2) (inject_Z (Start_Week row) - half)%Q None.
Proof.
  unfold bar_of_row, getitem. res_simpl.
  destruct (color_map !! Type_ row) as [c|]; split.
  - intros [= <-]. by exists c.
  - intros (c' & [= <-] & ->). done.
  - done.
  - by intros (c' & ? & _).
Qed.

Lemma bar_loop_inv rows fig fig' :
  bar_loop rows fig = Ok fig' →
  ∃ bars, Forall2 (fun row b => bar_of_row row = Ok b) rows bars ∧
          fig' = mkFigure (data fig ++ (TBar <$> bars)) (layout fig).
Proof.
  unfold bar_loop. revert fig.
  induction rows as [|row rows IH]; intros fig H; simpl in H.
  - injection H as <-. exists []. split; [constructor|].
    destruct fig; simpl. by rewrite app_nil_r.
  - unfold bar_step in H. res_simpl.
    destruct (bar_of_row row) as [b|] eqn:Hb; [|done].
    apply IH in H as (bars & HF & ->). exists (b :: bars). split.
    + by constructor.
    + simpl. by rewrite <- app_assoc.
Qed.

Lemma bar_loop_total rows fig :
  Forall (fun row => is_Some (color_map !! Type_ row)) rows →
  ∃ fig', bar_loop rows fig = Ok fig'.
Proof.
  unfold bar_loop. intros H. revert fig.
  induction H as [|row rows [c Hc] _ IH]; intros fig; simpl.
  - by eexists.
  - unfold bar_step, bar_of_row, getitem. rewrite Hc. res_simpl. apply IH.
Qed.

Lemma bars_of_TBar bars : bars_of (TBar <$> bars) = bars.
Proof. induction bars as [|b bars IH]; simpl; [done|]. by f_equal. Qed.

Lemma bars_of_app l1 l2 : bars_of (l1 ++ l2) = bars_of l1 ++ bars_of l2.
Proof. apply omap_app. Qed.

Lemma bar_of_row_horizontal rows bars :
  Forall2 (fun row b => bar_of_row row = Ok b) rows bars →
  Forall2 (fun row b => bar_orientation b = "h" ∧ bar_y b = [Task row] ∧
                        bar_x b = [Duration row] ∧
                        length (bar_span b) = 1%nat) rows bars.
Proof.
  intros HF. eapply Forall2_impl; [exact HF|].
  intros row b (c & _ & ->)%bar_of_row_Ok. done.
Qed.

(** C1: the bar loop adds one Bar trace per row of the task table, after the
    traces already in the figure and in the order of the table.  The trace
    of a row is a horizontal bar trace that draws exactly one bar, on the
    row's task, with the row's duration as its length.  For the six-row
    table of the script, started on the new figure, the figure then holds
    exactly six traces, these six bars. *)
Theorem C1_one_bar_per_task :
  (∀ rows fig fig', bar_loop rows fig = Ok fig' →
     ∃ bars, data fig' = data fig ++ (TBar <$> bars) ∧
             length bars = length rows ∧
             Forall2 (fun row b => bar_orientation b = "h" ∧
                                   bar_y b = [Task row] ∧
                                   bar_x b = [Duration row] ∧
                                   length (bar_span b) = 1%nat) rows bars) ∧
  length tasks_data = 6%nat ∧
  ∃ fig' bars, bar_loop df Figure_new = Ok fig' ∧
               data fig' = TBar <$> bars ∧ length bars = 6%nat ∧
               Forall2 (fun row b => bar_orientation b = "h" ∧
                                     bar_y b = [Task row] ∧
                                     bar_x b = [Duration row] ∧
                                     length (bar_span b) = 1%nat) df bars.
Proof.
  split; [|split; [done|]].
  - intros rows fig fig' H. apply bar_loop_inv in H as (bars & HF & ->).
    exists bars. split; [done|].
    split; [symmetry; by eapply Forall2_length|].
    by apply bar_of_row_horizontal.
  - destruct (bar_loop df Figure_new) as [fig'|] eqn:H; [|by vm_compute in H].
    destruct (bar_loop_inv _ _ _ H) as (bars & HF & ->).
    eexists; exists bars. split; [done|]. split; [done|].
    split; [|by apply bar_of_row_horizontal].
    apply Forall2_length in HF. by rewrite <- HF.
Qed.

(** C1 on the table of the script. *)
Lemma C1_one_bar_per_task_witness :
  ∃ fig' bars, bar_loop tasks_data Figure_new = Ok fig' ∧
               data fig' = data Figure_new ++ (TBar <$> bars) ∧
               length bars = length tasks_data ∧
               Forall2 (fun row b => bar_orientation b = "h" ∧
                                     bar_y b = [Task row] ∧
                                     bar_x b = [Duration row] ∧
                                     length (bar_span b) = 1%nat)
                       tasks_data bars.
Proof.
  destruct (bar_loop tasks_data Figure_new) as [fig'|] eqn:H;
    [|by vm_compute in H].
  destruct (proj1 C1_one_bar_per_task tasks_data Figure_new fig' H)
    as (bars & Hd & Hl & HF).
  by exists fig', bars.
Defined.

(** The trace the bar loop adds for the row at index [i]. *)
Lemma bar_loop_lookup rows fig fig' i row :
  bar_loop rows fig = Ok fig' → rows !! i = Some row →
  ∃ b, data fig' !! (length (data fig) + i)%nat = Some (TBar b) ∧
       bar_of_row row = Ok b.
Proof.
  intros (bars & HF & ->)%bar_loop_inv Hrow.
  destruct (Forall2_lookup_l _ _ _ _ _ HF Hrow) as (b & Hb & Hrb).
  exists b. split; [|done]. simpl.
  rewrite lookup_app_r by lia.
  replace (length (data fig) + i - length (data fig))%nat with i by lia.
  by rewrite list_lookup_fmap, Hb.
Qed.

(** C2, as the claim states it, fails on the first row of the table: the bar
    of "Village Render", a task that starts in week 1, starts at 0.5. *)
Lemma C2_bar_starts_at_week_counterexample :
  ∃ fig' row b lo hi,
    bar_loop df Figure_new = Ok fig' ∧
    df !! 0%nat = Some row ∧ data fig' !! 0%nat = Some (TBar b) ∧
    Start_Week row = 1 ∧ bar_span b = [(lo, hi)] ∧
    (lo == 1 # 2)%Q ∧ ¬ (lo == inject_Z (Start_Week row))%Q.
Proof.
  destruct (bar_loop df Figure_new) as [fig'|] eqn:H; [|by vm_compute in H].
  exists fig'. vm_compute in H. injection H as <-.
  do 4 eexists. repeat split; try reflexivity. by vm_compute.
Qed.

(** C2 (amended): for every row of the task table the bar loop adds a Bar
    trace on the row's task name with a single bar, which starts half a week
    before the row's start week and whose length is the row's duration. *)
Theorem C2_bar_position rows fig fig' i row :
  bar_loop rows fig = Ok fig' → rows !! i = Some row →
  ∃ b lo hi,
    data fig' !! (length (data fig) + i)%nat = Some (TBar b) ∧
    bar_y b = [Task row] ∧ bar_x b = [Duration row] ∧
    bar_span b = [(lo, hi)] ∧
    (lo == inject_Z (Start_Week row) - (1 # 2))%Q ∧
    (hi - lo == inject_Z (Duration row))%Q.
Proof.
  intros H Hrow.
  destruct (bar_loop_lookup _ _ _ _ _ H Hrow) as (b & Hb & Hrb).
  apply bar_of_row_Ok in Hrb as (c & _ & ->).
  eexists _, _, _. split; [exact Hb|]. simpl.
  repeat split; unfold bar_span, half; simpl; try reflexivity. ring.
Qed.

(** C2 (amended) on the second row of the table: the bar of the week-2 task
    starts at 1.5 and is one week long. *)
Lemma C2_bar_position_witness :
  ∃ fig' b lo hi,
    bar_loop tasks_data Figure_new = Ok fig' ∧
    data fig' !! 1%nat = Some (TBar b) ∧
    bar_y b = ["RPG Dialogue"] ∧ bar_x b = [1] ∧
    bar_span b = [(lo, hi)] ∧
    (lo == inject_Z 2 - (1 # 2))%Q ∧ (hi - lo == inject_Z 1)%Q.
Proof.
  destruct (bar_loop tasks_data Figure_new) as [fig'|] eqn:H;
    [|by vm_compute in H].
  destruct (C2_bar_position tasks_data Figure_new fig' 1%nat
              (mkTask "RPG Dialogue" 2 1 "Frontend" "UI panel system")
              H eq_refl) as (b & lo & hi & Hb).
  by exists fig', b, lo, hi.
Defined.

(** C3: the marker colour of the bar of every row is the colour the colour
    map gives the row's category; two rows of the same category therefore
    get bars of the same colour. *)
Theorem C3_bar_color rows fig fig' :
  bar_loop rows fig = Ok fig' →
  (∀ i row, rows !! i = Some row →
     ∃ b, data fig' !! (length (data fig) + i)%nat = Some (TBar b) ∧
          bar_name b = Type_ row ∧
          color_map !! Type_ row = Some (bar_marker_color b)) ∧
  (∀ i j row row' b b',
     rows !! i = Some row → rows !! j = Some row' →
     data fig' !! (length (data fig) + i)%nat = Some (TBar b) →
     data fig' !! (length (data fig) + j)%nat = Some (TBar b') →
     Type_ row = Type_ row' →
     bar_marker_color b = bar_marker_color b').
Proof.
  intros H.
  assert (Hone : ∀ i row, rows !! i = Some row →
     ∃ b, data fig' !! (length (data fig) + i)%nat = Some (TBar b) ∧
          bar_name b = Type_ row ∧
          color_map !! Type_ row = Some (bar_marker_color b)).
  { intros i row Hrow.
    destruct (bar_loop_lookup _ _ _ _ _ H Hrow) as (b & Hb & Hrb).
    apply bar_of_row_Ok in Hrb as (c & Hc & ->).
    eexists. split; [exact Hb|]. by simpl. }
  split; [exact Hone|].
  intros i j row row' b b' Hi Hj Hb Hb' Hty.
  destruct (Hone i row Hi) as (b1 & Hb1 & _ & Hc1).
  destruct (Hone j row' Hj) as (b2 & Hb2 & _ & Hc2).
  rewrite Hb in Hb1. rewrite Hb' in Hb2.
  injection Hb1 as <-. injection Hb2 as <-.
  rewrite Hty in Hc1. rewrite Hc1 in Hc2. by injection Hc2.
Qed.

(** C3 on the table of the script, with the six colours. *)
Lemma C3_bar_color_witness :
  ∃ fig',
    bar_loop tasks_data Figure_new = Ok fig' ∧
    (bar_marker_color <$> bars_of (data fig')) =
      ["#2E8B57"; "#2E8B57"; "#1FB8CD"; "#1FB8CD"; "#D2BA4C"; "#944454"] ∧
    (∀ i row, tasks_data !! i = Some row →
       ∃ b, data fig' !! (length (data Figure_new) + i)%nat = Some (TBar b) ∧
            bar_name b = Type_ row ∧
            color_map !! Type_ row = Some (bar_marker_color b)).
Proof.
  destruct (bar_loop tasks_data Figure_new) as [fig'|] eqn:H;
    [|by vm_compute in H].
  exists fig'. split; [done|]. split.
  - vm_compute in H. by injection H as <-.
  - exact (proj1 (C3_bar_color tasks_data Figure_new fig' H)).
Defined.

(** ** The legend pass *)

Lemma set_showlegend_name v t : trace_name (set_showlegend v t) = trace_name t.
Proof. by destruct t. Qed.

Lemma set_showlegend_showlegend v t :
  trace_showlegend (set_showlegend v t) = v.
Proof. by destruct t. Qed.

Lemma legend_pass_names seen l :
  trace_name <$> legend_pass seen l = trace_name <$> l.
Proof.
  revert seen. induction l as [|t l IH]; intros seen; simpl; [done|].
  case_decide; simpl; rewrite IH; [|done].
  by rewrite set_showlegend_name.
Qed.

(** Which traces keep their legend entry: those whose name is neither in
    [legend_added] at the start nor carried by an earlier trace. *)
Lemma legend_pass_lookup seen l i t :
  Forall (fun t => trace_showlegend t = true) l →
  legend_pass seen l !! i = Some t →
  (trace_showlegend t = true ↔
     (trace_name t ∉ seen) ∧
     (∀ j t', (j < i)%nat → l !! j = Some t' → trace_name t' ≠ trace_name t)).
Proof.
  intros Hall. revert seen i.
  induction Hall as [|t0 l Ht0 _ IH]; intros seen i Hi; [done|].
  simpl in Hi. destruct i as [|i].
  - case_decide as Hin; simpl in Hi; injection Hi as <-.
    + rewrite set_showlegend_showlegend, set_showlegend_name. split; [done|].
      by intros [? _].
    + split; [|done]. intros _. split; [done|]. intros j t' Hj. lia.
  - case_decide as Hin; simpl in Hi; apply IH in Hi; rewrite Hi; clear Hi.
    + split.
      * intros [Hn Hprev]. split; [done|]. intros [|j] t' Hj Hl; simpl in Hl.
        -- injection Hl as <-. intros Heq. by rewrite Heq in Hin.
        -- apply (Hprev j); [lia|done].
      * intros [Hn Hprev]. split; [done|]. intros j t' Hj Hl.
        apply (Hprev (S j)); [lia|done].
    + split.
      * intros [Hn Hprev]. split; [set_solver|].
        intros [|j] t' Hj Hl; simpl in Hl.
        -- injection Hl as <-. set_solver.
        -- apply (Hprev j); [lia|done].
      * intros [Hn Hprev]. split.
        -- assert (trace_name t0 ≠ trace_name t)
             by (apply (Hprev 0%nat); [lia|done]).
           set_solver.
        -- intros j t' Hj Hl. apply (Hprev (S j)); [lia|done].
Qed.

(** How many traces named [n] keep their legend entry. *)
Lemma legend_pass_count seen l n :
  Forall (fun t => trace_showlegend t = true) l →
  length (filter (fun t => trace_name t = n ∧ trace_showlegend t = true)
                 (legend_pass seen l)) =
  if decide (n ∈ seen) then 0%nat
  else if decide (n ∈ trace_name <$> l) then 1%nat else 0%nat.
Proof.
  intros Hall. revert seen.
  induction Hall as [|t0 l Ht0 _ IH]; intros seen; simpl.
  - by repeat case_decide.
  - destruct (decide (trace_name t0 ∈ seen)) as [Hin|Hin].
    + rewrite filter_cons_False
        by (rewrite set_showlegend_showlegend; by intros [_ ?]).
      rewrite IH. destruct (decide (n ∈ seen)) as [|Hn]; [done|].
      assert (trace_name t0 ≠ n) by (intros <-; done).
      repeat case_decide; set_solver.
    + destruct (decide (trace_name t0 = n)) as [Heq|Hne].
      * rewrite filter_cons_True by done. simpl. rewrite IH.
        rewrite decide_True by set_solver.
        rewrite decide_False by (by rewrite <- Heq).
        rewrite decide_True by set_solver. done.
      * rewrite filter_cons_False by (by intros [? _]).
        rewrite IH. repeat case_decide; set_solver.
Qed.

Lemma bar_loop_showlegend rows fig :
  bar_loop rows Figure_new = Ok fig →
  Forall (fun t => trace_showlegend t = true) (data fig) ∧
  trace_name <$> data fig = Type_ <$> rows.
Proof.
  intros (bars & HF & ->)%bar_loop_inv. simpl.
  induction HF as [|row b rows bars Hb _ [IH1 IH2]]; simpl; [done|].
  apply bar_of_row_Ok in Hb as (c & _ & ->). split.
  - by constructor.
  - simpl. by f_equal.
Qed.

(** C4: after the legend pass over the bar traces, every category name that
    occurs among them has exactly one trace with that name whose showlegend
    is True; that trace is the first of its name in figure order, and every
    later trace of the same name has showlegend False.  The pass changes
    neither the number of traces nor their names. *)
Theorem C4_legend_dedup rows fig :
  bar_loop rows Figure_new = Ok fig →
  trace_name <$> data (dedupe_legend fig) = trace_name <$> data fig ∧
  (∀ n, n ∈ trace_name <$> data fig →
     length (filter (fun t => trace_name t = n ∧ trace_showlegend t = true)
                    (data (dedupe_legend fig))) = 1%nat) ∧
  (∀ i t, data (dedupe_legend fig) !! i = Some t →
     (trace_showlegend t = true ↔
        ∀ j t', (j < i)%nat → data (dedupe_legend fig) !! j = Some t' →
                trace_name t' ≠ trace_name t)).
Proof.
  intros [Hall Hnames]%bar_loop_showlegend. simpl.
  split; [apply legend_pass_names|]. split.
  - intros n Hn. rewrite legend_pass_count by done.
    rewrite decide_False by set_solver. by rewrite decide_True.
  - intros i t Hi. rewrite (legend_pass_lookup _ _ _ _ Hall Hi).
    assert (Hsame : ∀ j, trace_name <$> legend_pass ∅ (data fig) !! j =
                         trace_name <$> data fig !! j).
    { intros j. by rewrite <- !list_lookup_fmap, legend_pass_names. }
    split.
    + intros [_ Hprev] j t' Hj Hl.
      pose proof (Hsame j) as Hs. rewrite Hl in Hs. simpl in Hs.
      destruct (data fig !! j) as [t0|] eqn:Ht0; [|done].
      injection Hs as ->. by apply (Hprev j).
    + intros Hprev. split; [set_solver|]. intros j t' Hj Hl.
      pose proof (Hsame j) as Hs. rewrite Hl in Hs. simpl in Hs.
      destruct (legend_pass ∅ (data fig) !! j) as [t0|] eqn:Ht0; [|done].
      injection Hs as <-. by apply (Hprev j).
Qed.

(** C4 on the table of the script: the second Frontend and the second
    Backend bar lose their legend entry. *)
Lemma C4_legend_dedup_witness :
  ∃ fig,
    bar_loop tasks_data Figure_new = Ok fig ∧
    (trace_name <$> data (dedupe_legend fig)) =
      ["Frontend"; "Frontend"; "Backend"; "Backend"; "DevOps"; "Testing"] ∧
    (trace_showlegend <$> data (dedupe_legend fig)) =
      [true; false; true; false; true; true] ∧
    (∀ n, n ∈ trace_name <$> data fig →
       length (filter (fun t => trace_name t = n ∧ trace_showlegend t = true)
                      (data (dedupe_legend fig))) = 1%nat).
Proof.
  destruct (bar_loop tasks_data Figure_new) as [fig|] eqn:H;
    [|by vm_compute in H].
  exists fig. split; [done|].
  pose proof (C4_legend_dedup tasks_data fig H) as (_ & Hcount & _).
  vm_compute in H. injection H as <-. done.
Defined.

(** ** Task positions and the milestone loop *)

Lemma positions_from_notin names (d : gmap string Z) k name :
  name ∉ names → positions_from d k names !! name = d !! name.
Proof.
  unfold positions_from.
  revert d k. induction names as [|x names IH]; intros d k Hn; simpl; [done|].
  rewrite IH by set_solver. apply lookup_insert_ne. set_solver.
Qed.

Lemma positions_from_is_Some names (d : gmap string Z) k name :
  name ∈ names → is_Some (positions_from d k names !! name).
Proof.
  revert d k. induction names as [|x names IH]; intros d k Hn.
  - by apply elem_of_nil in Hn.
  - change (is_Some (positions_from (<[x := Z.of_nat k]> d) (S k) names !! name)).
    destruct (decide (name ∈ names)) as [Hin|Hnotin]; [by apply IH|].
    rewrite positions_from_notin by done.
    assert (name = x) as -> by set_solver.
    rewrite lookup_insert_eq. by eexists.
Qed.

Lemma positions_from_NoDup names (d : gmap string Z) k i name :
  NoDup names → names !! i = Some name →
  positions_from d k names !! name = Some (Z.of_nat (k + i)).
Proof.
  intros Hnd. revert d k i.
  induction Hnd as [|x names Hx Hnd IH]; intros d k i Hi; [done|].
  change (positions_from (<[x := Z.of_nat k]> d) (S k) names !! name
          = Some (Z.of_nat (k + i))).
  destruct i as [|i]; simpl in Hi.
  - injection Hi as ->. rewrite positions_from_notin by done.
    rewrite lookup_insert_eq. by rewrite Nat.add_0_r.
  - rewrite (IH _ _ i Hi). do 2 f_equal. lia.
Qed.

Lemma make_task_positions_nil :
  make_task_positions [] = Raise (KeyError "Task").
Proof. done. Qed.

Lemma make_task_positions_cons row rows :
  make_task_positions (row :: rows) = Ok (task_positions (row :: rows)).
Proof. done. Qed.

Lemma make_task_positions_Ok rows positions :
  make_task_positions rows = Ok positions ↔
  rows ≠ [] ∧ positions = task_positions rows.
Proof.
  destruct rows as [|row rows].
  - rewrite make_task_positions_nil. split; [done|]. by intros [? _].
  - rewrite make_task_positions_cons. split.
    + by intros [= <-].
    + by intros [_ ->].
Qed.

Lemma task_positions_is_Some rows name :
  name ∈ Task <$> rows → is_Some (task_positions rows !! name).
Proof. apply (positions_from_is_Some _ ∅ 0%nat). Qed.

(** With distinct task names, a task's position is its index in the table. *)
Lemma task_positions_index rows i row :
  NoDup (Task <$> rows) → rows !! i = Some row →
  task_positions rows !! Task row = Some (Z.of_nat i).
Proof.
  intros Hnd Hi.
  change (positions_from ∅ 0 (Task <$> rows) !! Task row = Some (Z.of_nat i)).
  rewrite (positions_from_NoDup _ _ 0 i); [done|done|].
  by rewrite list_lookup_fmap, Hi.
Qed.

Lemma scatter_of_milestone_Ok positions m s :
  scatter_of_milestone positions m = Ok s ↔
  ∃ y_pos, positions !! task m = Some y_pos ∧
           s = mkScatter [week m] [y_pos] "markers+text"
                         (mkMarker "diamond" 12 "#DB4545" "black" 1)
                         (label m) "top center" 10 "black" false "Milestone"
                         None.
Proof.
  unfold scatter_of_milestone, getitem. res_simpl.
  destruct (positions !! task m) as [y|]; split.
  - intros [= <-]. by exists y.
  - intros (y' & [= <-] & ->). done.
  - done.
  - by intros (y' & ? & _).
Qed.

Lemma milestone_loop_inv positions ms fig fig' :
  milestone_loop positions ms fig = Ok fig' →
  ∃ scs, Forall2 (fun m s => scatter_of_milestone positions m = Ok s) ms scs ∧
         fig' = mkFigure (data fig ++ (TScatter <$> scs)) (layout fig).
Proof.
  unfold milestone_loop. revert fig.
  induction ms as [|m ms IH]; intros fig H; simpl in H.
  - injection H as <-. exists []. split; [constructor|].
    destruct fig; simpl. by rewrite app_nil_r.
  - unfold milestone_step in H. res_simpl.
    destruct (scatter_of_milestone positions m) as [s|] eqn:Hs; [|done].
    apply IH in H as (scs & HF & ->). exists (s :: scs). split.
    + by constructor.
    + simpl. by rewrite <- app_assoc.
Qed.

Lemma milestone_loop_total positions ms fig :
  Forall (fun m => is_Some (positions !! task m)) ms →
  ∃ fig', milestone_loop positions ms fig = Ok fig'.
Proof.
  unfold milestone_loop. intros H. revert fig.
  induction H as [|m ms [y Hy] _ IH]; intros fig; simpl.
  - by eexists.
  - unfold milestone_step, scatter_of_milestone, getitem. rewrite Hy.
    res_simpl. apply IH.
Qed.

(** The row of a task on the reversed category axis. *)
Lemma category_row_reversed rows fig i row :
  NoDup (Task <$> rows) → rows !! i = Some row →
  category_row (update_traces_cliponaxis false (update_layout rows fig))
               (Task row)
  = Some (length rows - 1 - i)%nat.
Proof.
  intros Hnd Hi. unfold category_row. simpl.
  assert (Hlt : (i < length rows)%nat) by (by eapply lookup_lt_Some).
  assert (Hname : (Task <$> rows) !! i = Some (Task row))
    by (by rewrite list_lookup_fmap, Hi).
  assert (Hfind : list_find (fun c => c = Task row) (reverse (Task <$> rows))
                  = Some ((length rows - 1 - i)%nat, Task row)).
  { apply list_find_Some.
    assert (Hrev : reverse (Task <$> rows) !! (length rows - 1 - i)%nat
                   = Some (Task row)).
    { rewrite reverse_lookup by (rewrite length_fmap; lia).
      rewrite length_fmap.
      replace (length rows - S (length rows - 1 - i))%nat with i by lia.
      done. }
    split; [done|]. split; [done|].
    intros j y Hj Hlt' ->.
    assert (j = (length rows - 1 - i)%nat); [|lia].
    eapply NoDup_lookup; [|exact Hj|exact Hrev].
    by rewrite reverse_Permutation. }
  by rewrite Hfind.
Qed.

(** C5: the script adds one marker trace per milestone, at the milestone's
    week, but not on the row of the milestone's task.  The marker's y is the
    index of the task in the table (1, 3 and 5), while the y axis lists the
    tasks in reversed order, where the three tasks are on rows 4, 2 and 0. *)
Theorem C5_marker_off_task_row :
  ∃ fig,
    build_figure tasks_data milestones = Ok fig ∧
    Forall2 (fun m s => sc_x s = [week m]) milestones (scatters_of (data fig)) ∧
    sc_y <$> scatters_of (data fig) = [[1]; [3]; [5]] ∧
    (fun m => category_row fig (task m)) <$> milestones
      = [Some 4; Some 2; Some 0]%nat.
Proof.
  destruct (build_figure tasks_data milestones) as [fig|] eqn:H;
    [|by vm_compute in H].
  exists fig. split; [done|].
  vm_compute in H. injection H as <-.
  split; [|split; reflexivity].
  repeat constructor.
Qed.

(** ** Dependency arrows *)

Lemma add_annotations_nil fig : add_annotations [] fig = fig.
Proof.
  destruct fig as [d [? ? ? ? ? anns]]. unfold add_annotations. simpl.
  unfold set_annotations. simpl. by rewrite app_nil_r.
Qed.

Lemma add_annotations_cons a l fig :
  add_annotations l (add_annotation a fig) = add_annotations (a :: l) fig.
Proof.
  unfold add_annotations, add_annotation, set_annotations. simpl.
  by rewrite <- app_assoc.
Qed.

Lemma arrow_step_Ok rows i fig cur next :
  rows !! i = Some cur → rows !! (i + 1)%nat = Some next →
  arrow_step rows i fig = Ok (add_annotation (arrow i cur next) fig).
Proof. intros Hc Hn. unfold arrow_step, iloc. by rewrite Hc, Hn. Qed.

(** The iterations [k], ..., [k + m - 1] of the arrow loop, none of which
    reads past the end of the table. *)
Lemma arrow_loop_from rows m k fig :
  (k + m ≤ length rows - 1)%nat →
  ∃ arrows,
    for_each (arrow_step rows) (seq k m) fig = Ok (add_annotations arrows fig) ∧
    length arrows = m ∧
    ∀ i, (i < m)%nat →
      ∃ cur next, rows !! (k + i)%nat = Some cur ∧
                  rows !! (k + i + 1)%nat = Some next ∧
                  arrows !! i = Some (arrow (k + i) cur next).
Proof.
  revert k fig. induction m as [|m IH]; intros k fig Hle.
  - exists []. simpl. rewrite add_annotations_nil. split; [done|].
    split; [done|]. intros i Hi. lia.
  - destruct (lookup_lt_is_Some_2 rows k) as [cur Hcur]; [lia|].
    destruct (lookup_lt_is_Some_2 rows (k + 1)) as [next Hnext]; [lia|].
    rewrite <- cons_seq, for_each_cons,
      (arrow_step_Ok _ _ _ _ _ Hcur Hnext).
    change (Ok ?s ≫= ?f) with (f s). cbv beta.
    destruct (IH (S k) (add_annotation (arrow k cur next) fig)) as
      (arrows & Hrun & Hlen & Hget); [lia|].
    exists (arrow k cur next :: arrows).
    rewrite Hrun, add_annotations_cons. split; [done|].
    split; [simpl; by rewrite Hlen|].
    intros [|i] Hi.
    + exists cur, next. rewrite !Nat.add_0_r. by simpl.
    + destruct (Hget i) as (c & n & Hc & Hn & Ha); [lia|].
      exists c, n.
      replace (k + S i)%nat with (S k + i)%nat by lia. by simpl.
Qed.

(** C6: the arrow loop adds one arrow per adjacent pair of rows, five for
    the six rows of the script, and the head of the arrow of the pair
    (i, i+1) is at the start of the bar of row i+1, its start week minus
    0.5.  The tail is not at the end of the bar of row i.  The call passes
    no axref, so that the number the code computes for the end of that bar,
    start week plus duration minus 0.5, is an offset in pixels from the
    head: 1.5, 2.5, 3.5, 4.5 and 5.5 pixels. *)
Theorem C6_arrow_tail_is_pixel_offset :
  ∃ arrows,
    arrow_loop df Figure_new = Ok (add_annotations arrows Figure_new) ∧
    length arrows = 5%nat ∧
    an_x <$> arrows = [3 # 2; 5 # 2; 7 # 2; 9 # 2; 11 # 2]%Q ∧
    an_axref <$> arrows = [None; None; None; None; None] ∧
    arrow_tail_x <$> arrows =
      [TailOffsetPx (3 # 2) (3 # 2); TailOffsetPx (5 # 2) (5 # 2);
       TailOffsetPx (7 # 2) (7 # 2); TailOffsetPx (9 # 2) (9 # 2);
       TailOffsetPx (11 # 2) (11 # 2)].
Proof.
  exists (adjacent_arrows 0 df). split; [by vm_compute|].
  repeat split; by vm_compute.
Qed.

(** ** The lookups of the two loops *)

(** C9: every category of the task table is a key of the colour map and
    every milestone names a task of the table.  A bar loop over rows whose
    categories are keys of the colour map and a milestone loop over
    milestones that name tasks of the table run to their end; so both
    lookups succeed at every iteration of the script's loops, and the
    figure is built without an exception. *)
Theorem C9_lookups_succeed :
  Forall (fun row => is_Some (color_map !! Type_ row)) tasks_data ∧
  Forall (fun m => task m ∈ Task <$> tasks_data) milestones ∧
  (∀ rows fig,
     Forall (fun row => is_Some (color_map !! Type_ row)) rows →
     ∃ fig', bar_loop rows fig = Ok fig') ∧
  (∀ rows ms fig,
     Forall (fun m => task m ∈ Task <$> rows) ms →
     ∃ fig', milestone_loop (task_positions rows) ms fig = Ok fig') ∧
  Forall (fun row => ∃ c, getitem color_map (Type_ row) = Ok c) tasks_data ∧
  Forall (fun m => ∃ y_pos,
            getitem (task_positions (df)) (task m) = Ok y_pos) milestones ∧
  ∃ fig, build_figure tasks_data milestones = Ok fig.
Proof.
  split; [repeat constructor; by eexists|].
  split; [repeat constructor; set_solver|].
  split; [intros rows fig; apply bar_loop_total|].
  split.
  { intros rows ms fig H. apply milestone_loop_total.
    eapply Forall_impl; [exact H|]. intros m. apply task_positions_is_Some. }
  split; [repeat constructor; by eexists|].
  split; [repeat constructor; by eexists|].
  destruct (build_figure tasks_data milestones) as [fig|] eqn:H;
    [by exists fig|by vm_compute in H].
Qed.

(** C9: both loops of the script run to their end. *)
Lemma C9_lookups_succeed_witness :
  (∃ fig', bar_loop tasks_data Figure_new = Ok fig') ∧
  (∃ fig', milestone_loop (task_positions tasks_data) milestones Figure_new
           = Ok fig').
Proof.
  destruct C9_lookups_succeed as (Hc & Hm & Hbar & Hmil & _).
  split.
  - exact (Hbar tasks_data Figure_new Hc).
  - exact (Hmil tasks_data milestones Figure_new Hm).
Defined.

(** ** The figure as a whole *)

Lemma arrow_loop_spec rows fig :
  ∃ arrows,
    arrow_loop rows fig = Ok (add_annotations arrows fig) ∧
    length arrows = (length rows - 1)%nat ∧
    ∀ i, (i < length rows - 1)%nat →
      ∃ cur next, rows !! i = Some cur ∧ rows !! (i + 1)%nat = Some next ∧
                  arrows !! i = Some (arrow i cur next).
Proof.
  destruct (arrow_loop_from rows (length rows - 1) 0 fig) as
    (arrows & Hrun & Hlen & Hget); [simpl; lia|].
  by exists arrows.
Qed.

Lemma build_figure_inv rows ms fig :
  build_figure rows ms = Ok fig →
  ∃ bars scs arrows,
    Forall2 (fun row b => bar_of_row row = Ok b) rows bars ∧
    Forall2 (fun m s => scatter_of_milestone (task_positions rows) m = Ok s)
            ms scs ∧
    (∀ a, a ∈ arrows →
       ∃ i cur next, rows !! i = Some cur ∧ rows !! (i + 1)%nat = Some next ∧
                     a = arrow i cur next) ∧
    fig = update_traces_cliponaxis false (update_layout rows
            (add_annotations arrows
               (mkFigure (legend_pass ∅ (TBar <$> bars) ++ (TScatter <$> scs))
                         (layout Figure_new)))).
Proof.
  unfold build_figure. intros H.
  destruct (bar_loop rows Figure_new) as [fig1|] eqn:H1; [|done].
  destruct (bar_loop_inv _ _ _ H1) as (bars & HFb & ->).
  change (Ok ?s ≫= ?f) with (f s) in H. cbv beta in H.
  destruct (make_task_positions rows) as [positions|] eqn:Hpos; [|done].
  apply make_task_positions_Ok in Hpos as [_ ->].
  change (Ok ?s ≫= ?f) with (f s) in H. cbv beta in H.
  destruct (milestone_loop _ ms _) as [fig2|] eqn:H2; [|done].
  destruct (milestone_loop_inv _ _ _ _ H2) as (scs & HFs & ->).
  change (Ok ?s ≫= ?f) with (f s) in H. cbv beta in H.
  match type of H with
  | context [arrow_loop rows ?f] =>
      destruct (arrow_loop_spec rows f) as (arrows & Hrun & Hlen & Hget)
  end.
  rewrite Hrun in H. injection H as <-.
  exists bars, scs, arrows. split; [done|]. split; [done|]. split; [|done].
  intros a (i & Hi)%list_elem_of_lookup.
  destruct (Hget i) as (cur & next & Hc & Hn & Ha).
  { apply lookup_lt_Some in Hi. lia. }
  exists i, cur, next. rewrite Hi in Ha. by injection Ha as ->.
Qed.

(** With distinct task names, the marker of a milestone on the task at index
    [i] of the table has y = [i], while the y axis of the finished figure
    has that task on row [length rows - 1 - i]. *)
Lemma marker_row_reversed rows ms fig i row m s :
  NoDup (Task <$> rows) → rows !! i = Some row → task m = Task row →
  scatter_of_milestone (task_positions rows) m = Ok s →
  build_figure rows ms = Ok fig →
  sc_y s = [Z.of_nat i] ∧
  category_row fig (task m) = Some (length rows - 1 - i)%nat.
Proof.
  intros Hnd Hi Hm (y & Hy & ->)%scatter_of_milestone_Ok
         (bars & scs & arrows & _ & _ & _ & ->)%build_figure_inv.
  rewrite Hm in *. rewrite (task_positions_index _ _ _ Hnd Hi) in Hy.
  injection Hy as <-. split; [done|]. by apply category_row_reversed.
Qed.

(** The legend pass and [update_traces] move no bar. *)
Lemma bars_of_legend_pass seen l b' :
  b' ∈ bars_of (legend_pass seen l) →
  ∃ b, b ∈ bars_of l ∧ bar_x b' = bar_x b ∧ bar_base b' = bar_base b.
Proof.
  revert seen. induction l as [|t l IH]; intros seen; simpl.
  - by intros ?%elem_of_nil.
  - case_decide; destruct t as [b|s]; simpl.
    + intros [->|Hin]%elem_of_cons.
      * exists b. split; [by left|done].
      * destruct (IH _ Hin) as (b0 & ? & ?). exists b0. split; [by right|done].
    + intros Hin. apply (IH _ Hin).
    + intros [->|Hin]%elem_of_cons.
      * exists b. split; [by left|done].
      * destruct (IH _ Hin) as (b0 & ? & ?). exists b0. split; [by right|done].
    + intros Hin. apply (IH _ Hin).
Qed.

Lemma bars_of_cliponaxis v l b' :
  b' ∈ bars_of (set_cliponaxis v <$> l) →
  ∃ b, b ∈ bars_of l ∧ bar_x b' = bar_x b ∧ bar_base b' = bar_base b.
Proof.
  induction l as [|t l IH]; simpl.
  - by intros ?%elem_of_nil.
  - destruct t as [b|s]; simpl.
    + intros [->|Hin]%elem_of_cons.
      * exists b. split; [by left|done].
      * destruct (IH Hin) as (b0 & ? & ?). exists b0. split; [by right|done].
    + exact IH.
Qed.

Lemma bars_of_TScatter scs : bars_of (TScatter <$> scs) = [].
Proof. induction scs as [|s scs IH]; simpl; [done|]. exact IH. Qed.

(** Every bar of the finished figure is the bar of a row of the table. *)
Lemma build_figure_bars rows ms fig b :
  build_figure rows ms = Ok fig → b ∈ bars_of (data fig) →
  ∃ row, row ∈ rows ∧ bar_x b = [Duration row] ∧
         bar_base b = (inject_Z (Start_Week row) - half)%Q.
Proof.
  intros (bars & scs & arrows & HFb & _ & _ & ->)%build_figure_inv. simpl.
  intros (b1 & Hb1 & -> & ->)%bars_of_cliponaxis.
  rewrite bars_of_app, bars_of_TScatter, app_nil_r in Hb1.
  apply bars_of_legend_pass in Hb1 as (b0 & Hb0 & -> & ->).
  rewrite bars_of_TBar in Hb0.
  apply list_elem_of_lookup in Hb0 as (i & Hi).
  destruct (Forall2_lookup_r _ _ _ _ _ HFb Hi) as (row & Hrow & Hrb).
  exists row. split; [by eapply list_elem_of_lookup_2|].
  by apply bar_of_row_Ok in Hrb as (c & _ & ->).
Qed.

(** ** The schedule *)

Lemma chained_lookup rows i cur next :
  chained rows → rows !! i = Some cur → rows !! (i + 1)%nat = Some next →
  Start_Week next = Start_Week cur + Duration cur.
Proof.
  revert i. induction rows as [|r0 rows IH]; intros i Hch Hc Hn; [done|].
  destruct rows as [|r1 rows]; [by destruct i|].
  destruct Hch as [H01 Hch]. destruct i as [|i]; simpl in Hc, Hn.
  - by simplify_eq.
  - by apply (IH i).
Qed.

Lemma contiguous_bounds first_week last_week rows :
  contiguous first_week last_week rows →
  Forall (fun row => (0 ≤ Duration row)%Z) rows →
  ∀ row, row ∈ rows →
    (first_week ≤ Start_Week row)%Z ∧
    (Start_Week row + Duration row - 1 ≤ last_week)%Z.
Proof.
  intros ((r0 & Hhead & Hfirst) & Hch & (rn & Hlast & Hend)) Hdur.
  assert (Hlow : ∀ i row, rows !! i = Some row → (first_week ≤ Start_Week row)%Z).
  { induction i as [|i IH]; intros row Hi.
    - rewrite head_lookup in Hhead. rewrite Hi in Hhead.
      injection Hhead as ->. lia.
    - destruct (lookup_lt_is_Some_2 rows i) as [cur Hcur].
      { apply lookup_lt_Some in Hi. lia. }
      specialize (IH cur Hcur).
      replace (S i) with (i + 1)%nat in Hi by lia.
      rewrite (chained_lookup _ _ _ _ Hch Hcur Hi).
      assert (0 ≤ Duration cur)%Z; [|lia].
      eapply (proj1 (Forall_lookup _ _) Hdur); exact Hcur. }
  assert (Hup : ∀ k i row, (i + k + 1)%nat = length rows →
            rows !! i = Some row →
            (Start_Week row + Duration row - 1 ≤ last_week)%Z).
  { induction k as [|k IH]; intros i row Hlen Hi.
    - rewrite last_lookup in Hlast.
      replace (pred (length rows)) with i in Hlast by lia.
      rewrite Hi in Hlast. injection Hlast as ->. lia.
    - destruct (lookup_lt_is_Some_2 rows (i + 1)) as [next Hnext]; [lia|].
      specialize (IH (i + 1)%nat next ltac:(lia) Hnext).
      rewrite (chained_lookup _ _ _ _ Hch Hi Hnext) in IH.
      assert (0 ≤ Duration next)%Z; [|lia].
      eapply (proj1 (Forall_lookup _ _) Hdur); exact Hnext. }
  intros row (i & Hi)%list_elem_of_lookup. split; [by eapply Hlow|].
  apply (Hup (length rows - i - 1)%nat i); [|done].
  apply lookup_lt_Some in Hi. lia.
Qed.

(** C10: the table of the script is a contiguous schedule of six weeks: its
    first row starts at week 1, each next row starts at the start week of
    the row before it plus that row's duration, and week 6 is the last week
    the last row covers.  For every table that is such a schedule, with no
    negative duration, all bars of the finished figure lie within the range
    of the x axis, [0.5, 7].  The tail of a dependency arrow of the script
    is not at the x of its head: the code passes as ax a number equal to the
    x of the head, but passes no axref, so that the tail is that many
    pixels, more than none, away from the head. *)
Theorem C10_contiguous_schedule :
  contiguous 1 6 tasks_data ∧
  (∀ rows ms fig,
     contiguous 1 6 rows → Forall (fun row => (0 ≤ Duration row)%Z) rows →
     build_figure rows ms = Ok fig →
     ∃ xaxis,
       layout_xaxis (layout fig) = Some xaxis ∧
       xaxis_range xaxis = (1 # 2, 7 # 1)%Q ∧
       (∀ b lo hi, b ∈ bars_of (data fig) → (lo, hi) ∈ bar_span b →
          (fst (xaxis_range xaxis) <= lo)%Q ∧ (lo <= hi)%Q ∧
          (hi <= snd (xaxis_range xaxis))%Q)) ∧
  ∃ fig,
    build_figure tasks_data milestones = Ok fig ∧
    length (layout_annotations (layout fig)) = 5%nat ∧
    Forall (fun a => arrow_tail_x a = TailOffsetPx (an_x a) (an_ax a) ∧
                     (an_ax a == an_x a)%Q ∧ (0 < an_ax a)%Q)
           (layout_annotations (layout fig)).
Proof.
  split; [|split].
  { split; [by eexists|]. split; [|by eexists]. simpl. by repeat split. }
  - intros rows ms fig Hcont Hdur Hfig.
    pose proof (contiguous_bounds _ _ _ Hcont Hdur) as Hbounds.
    pose proof (fun b => build_figure_bars _ _ _ b Hfig) as Hbars.
    apply build_figure_inv in Hfig as (bars & scs & arrows & _ & _ & _ & ->).
    eexists. split; [reflexivity|]. split; [reflexivity|]. simpl.
    intros b lo hi Hb Hspan.
    destruct (Hbars b Hb) as (row & Hrow & Hx & Hbase).
    unfold bar_span in Hspan. rewrite Hx, Hbase in Hspan. simpl in Hspan.
    apply list_elem_of_singleton in Hspan. injection Hspan as -> ->.
    destruct (Hbounds row Hrow) as [Hlo Hhi].
    assert (0 ≤ Duration row)%Z
      by (eapply (proj1 (Forall_forall _ _) Hdur); exact Hrow).
    unfold half, Qle, Qminus, Qplus, Qopp, inject_Z. simpl. lia.
  - destruct (build_figure tasks_data milestones) as [fig|] eqn:H;
      [|by vm_compute in H].
    exists fig. split; [done|]. vm_compute in H. injection H as <-.
    split; [done|]. simpl.
    repeat (constructor; [by repeat split|]). constructor.
Qed.

(** ** Export: effects and failures *)

Lemma build_figure_Ok : ∃ fig, build_figure tasks_data milestones = Ok fig.
Proof.
  destruct (build_figure tasks_data milestones) as [fig|] eqn:H;
    [by exists fig|by vm_compute in H].
Qed.

(** C7: whatever the backend does, the effects of the script are an initial
    part of: write gantt_chart.png, write gantt_chart.svg, print the final
    message; nothing else is written or read.  When neither export fails the
    script does exactly these three, in that order, and ends normally: two
    file writes, both to paths relative to the working directory.  The run
    does not depend on the command line or on the environment. *)
Theorem C7_effects kaleido proc :
  ((∀ fig, build_figure tasks_data milestones = Ok fig →
      kaleido fig "gantt_chart.png" None = None ∧
      kaleido fig "gantt_chart.svg" (Some "svg") = None) →
   main kaleido proc =
     (Ok tt, [FileWrite "gantt_chart.png"; FileWrite "gantt_chart.svg";
              Stdout "Saved gantt_chart.png and gantt_chart.svg"])) ∧
  snd (main kaleido proc) `prefix_of`
    [FileWrite "gantt_chart.png"; FileWrite "gantt_chart.svg";
     Stdout "Saved gantt_chart.png and gantt_chart.svg"] ∧
  (∀ proc', main kaleido proc' = main kaleido proc).
Proof.
  destruct build_figure_Ok as [fig Hfig].
  unfold main, script, IO_bind, IO_lift, write_image, print.
  rewrite Hfig. split; [|split; [|done]].
  - intros H. destruct (H fig eq_refl) as [-> ->]. done.
  - destruct (kaleido fig "gantt_chart.png" None); simpl.
    { apply prefix_nil. }
    destruct (kaleido fig "gantt_chart.svg" (Some "svg")); simpl.
    { by apply prefix_cons, prefix_nil. }
    done.
Qed.

(** C7 with a backend that never fails. *)
Lemma C7_effects_witness :
  main (fun _ _ _ => None) (mkProcess ["scripts/gantt.py"] ∅) =
    (Ok tt, [FileWrite "gantt_chart.png"; FileWrite "gantt_chart.svg";
             Stdout "Saved gantt_chart.png and gantt_chart.svg"]).
Proof.
  apply (proj1 (C7_effects (fun _ _ _ => None)
                           (mkProcess ["scripts/gantt.py"] ∅))).
  intros fig _. split; reflexivity.
Defined.

(** C8: an exception raised anywhere ends the script with that very
    exception and without any later effect.  A failing lookup in a loop ends
    the loop and the construction of the figure, and so does a failing
    lookup of the column of task names; a failing construction or a
    failing export of the PNG ends the script before anything is written; a
    failing export of the SVG ends it after the PNG alone, without the final
    message.  Conversely the script raises nothing but what one of these
    steps raised. *)
Theorem C8_failures_propagate kaleido proc rows ms e :
  (∀ l1 row l2 fig1,
     rows = l1 ++ row :: l2 → bar_loop l1 Figure_new = Ok fig1 →
     getitem color_map (Type_ row) = Raise e →
     bar_loop rows Figure_new = Raise e) ∧
  (∀ fig l1 m l2 fig1,
     ms = l1 ++ m :: l2 →
     milestone_loop (task_positions rows) l1 fig = Ok fig1 →
     getitem (task_positions rows) (task m) = Raise e →
     milestone_loop (task_positions rows) ms fig = Raise e) ∧
  (bar_loop rows Figure_new = Raise e → build_figure rows ms = Raise e) ∧
  (∀ fig, bar_loop rows Figure_new = Ok fig →
     make_task_positions rows = Raise e →
     build_figure rows ms = Raise e) ∧
  (∀ fig positions, bar_loop rows Figure_new = Ok fig →
     make_task_positions rows = Ok positions →
     milestone_loop positions ms (dedupe_legend fig) = Raise e →
     build_figure rows ms = Raise e) ∧
  (build_figure rows ms = Raise e →
   script kaleido proc rows ms [] = (Raise e, [])) ∧
  (∀ fig, build_figure rows ms = Ok fig →
     kaleido fig "gantt_chart.png" None = Some e →
     script kaleido proc rows ms [] = (Raise e, [])) ∧
  (∀ fig, build_figure rows ms = Ok fig →
     kaleido fig "gantt_chart.png" None = None →
     kaleido fig "gantt_chart.svg" (Some "svg") = Some e →
     script kaleido proc rows ms [] = (Raise e, [FileWrite "gantt_chart.png"])) ∧
  (∀ log, script kaleido proc rows ms [] = (Raise e, log) →
     build_figure rows ms = Raise e ∨
     ∃ fig, build_figure rows ms = Ok fig ∧
            (kaleido fig "gantt_chart.png" None = Some e ∨
             kaleido fig "gantt_chart.svg" (Some "svg") = Some e)).
Proof.
  repeat split.
  - intros l1 row l2 fig1 -> H1 He. unfold bar_loop in *.
    eapply for_each_raise; [exact H1|].
    unfold bar_step, bar_of_row. by rewrite He.
  - intros fig l1 m l2 fig1 -> H1 He. unfold milestone_loop in *.
    eapply for_each_raise; [exact H1|].
    unfold milestone_step, scatter_of_milestone. by rewrite He.
  - intros H. unfold build_figure. by rewrite H.
  - intros fig H1 H2. unfold build_figure. rewrite H1.
    change (Ok ?s ≫= ?f) with (f s). cbv beta. by rewrite H2.
  - intros fig positions H1 H2 H3. unfold build_figure. rewrite H1.
    change (Ok ?s ≫= ?f) with (f s). cbv beta. rewrite H2.
    change (Ok ?s ≫= ?f) with (f s). cbv beta. by rewrite H3.
  - intros H. unfold script, IO_bind, IO_lift. by rewrite H.
  - intros fig H Hk. unfold script, IO_bind, IO_lift, write_image.
    by rewrite H, Hk.
  - intros fig H Hk1 Hk2. unfold script, IO_bind, IO_lift, write_image.
    by rewrite H, Hk1, Hk2.
  - intros log. unfold script, IO_bind, IO_lift, write_image, print.
    destruct (build_figure rows ms) as [fig|e0]; [|intros [= ->]; by left].
    intros H. right. exists fig. split; [done|]. revert H.
    destruct (kaleido fig "gantt_chart.png" None) as [e1|];
      [intros [= ->]; by left|].
    simpl.
    destruct (kaleido fig "gantt_chart.svg" (Some "svg")) as [e2|];
      [intros [= ->]; by right|done].
Qed.

(** C8 with a directory in which the SVG cannot be written: the script ends
    with the OSError after the PNG, and prints nothing. *)
Lemma C8_failures_propagate_witness :
  main (fun _ file _ =>
          if decide (file = "gantt_chart.svg")
          then Some (OSError "Permission denied") else None)
       (mkProcess ["scripts/gantt.py"] ∅) =
    (Raise (OSError "Permission denied"), [FileWrite "gantt_chart.png"]).
Proof.
  destruct build_figure_Ok as [fig Hfig].
  pose proof (C8_failures_propagate
    (fun _ file _ =>
       if decide (file = "gantt_chart.svg")
       then Some (OSError "Permission denied") else None)
    (mkProcess ["scripts/gantt.py"] ∅) tasks_data milestones
    (OSError "Permission denied"))
    as (_ & _ & _ & _ & _ & _ & _ & Hsvg & _).
  exact (Hsvg fig Hfig eq_refl eq_refl).
Defined.

(** * Further properties of the script *)

(** ** How the loops fail *)

Lemma bar_step_Some row fig c :
  color_map !! Type_ row = Some c →
  ∃ b, bar_step row fig = Ok (add_trace (TBar b) fig).
Proof.
  intros Hc. unfold bar_step, bar_of_row, getitem. rewrite Hc. by eexists.
Qed.

Lemma bar_step_None row fig :
  color_map !! Type_ row = None →
  bar_step row fig = Raise (KeyError (Type_ row)).
Proof. intros Hc. unfold bar_step, bar_of_row, getitem. by rewrite Hc. Qed.

Lemma milestone_step_Some positions m fig y :
  positions !! task m = Some y →
  ∃ s, milestone_step positions m fig = Ok (add_trace (TScatter s) fig).
Proof.
  intros Hy. unfold milestone_step, scatter_of_milestone, getitem.
  rewrite Hy. by eexists.
Qed.

Lemma milestone_step_None positions m fig :
  positions !! task m = None →
  milestone_step positions m fig = Raise (KeyError (task m)).
Proof.
  intros Hy. unfold milestone_step, scatter_of_milestone, getitem.
  by rewrite Hy.
Qed.

Lemma bar_loop_outcome rows fig :
  (Forall (fun row => is_Some (color_map !! Type_ row)) rows ∧
   ∃ fig', bar_loop rows fig = Ok fig') ∨
  (∃ l1 row l2,
     rows = l1 ++ row :: l2 ∧
     Forall (fun r => is_Some (color_map !! Type_ r)) l1 ∧
     color_map !! Type_ row = None ∧
     bar_loop rows fig = Raise (KeyError (Type_ row))).
Proof.
  unfold bar_loop. revert fig. induction rows as [|r rows IH]; intros fig.
  - left. split; [constructor|by eexists].
  - rewrite for_each_cons.
    destruct (color_map !! Type_ r) as [c|] eqn:Hc.
    + destruct (bar_step_Some r fig c Hc) as [b ->].
      change (Ok ?s ≫= ?f) with (f s). cbv beta.
      destruct (IH (add_trace (TBar b) fig)) as
        [[Hall Hok]|(l1 & row & l2 & -> & Hall & Hnone & Hraise)].
      * left. split; [|done]. constructor; [by eexists|done].
      * right. exists (r :: l1), row, l2. split; [done|].
        split; [constructor; [by eexists|done]|]. done.
    + right. exists [], r, rows. rewrite (bar_step_None _ _ Hc).
      by repeat split.
Qed.


(** X1: the bar loop has exactly two outcomes.  Either every category of the
    table is a key of the colour map and the loop returns a figure, or the
    loop raises KeyError on the category of the first row whose category is
    not a key, whatever comes after that row. *)
Theorem X1_bar_loop_outcome rows fig :
  (Forall (fun row => is_Some (color_map !! Type_ row)) rows ∧
   ∃ fig', bar_loop rows fig = Ok fig') ∨
  (∃ l1 row l2,
     rows = l1 ++ row :: l2 ∧
     Forall (fun r => is_Some (color_map !! Type_ r)) l1 ∧
     color_map !! Type_ row = None ∧
     bar_loop rows fig = Raise (KeyError (Type_ row))).
Proof. apply bar_loop_outcome. Qed.

Lemma task_positions_None rows name :
  name ∉ Task <$> rows → task_positions rows !! name = None.
Proof.
  intros Hn.
  change (positions_from ∅ 0 (Task <$> rows) !! name = None).
  by rewrite positions_from_notin.
Qed.

(** The two outcomes of the milestone loop itself, once line 65 has built
    the positions. *)
Lemma milestone_loop_outcome rows ms fig :
  (Forall (fun m => task m ∈ Task <$> rows) ms ∧
   ∃ fig', milestone_loop (task_positions rows) ms fig = Ok fig') ∨
  (∃ l1 m l2,
     ms = l1 ++ m :: l2 ∧
     Forall (fun m' => task m' ∈ Task <$> rows) l1 ∧
     (task m ∉ Task <$> rows) ∧
     milestone_loop (task_positions rows) ms fig = Raise (KeyError (task m))).
Proof.
  unfold milestone_loop. revert fig. induction ms as [|m ms IH]; intros fig.
  - left. split; [constructor|by eexists].
  - rewrite for_each_cons.
    destruct (decide (task m ∈ Task <$> rows)) as [Hin|Hnotin].
    + destruct (task_positions_is_Some _ _ Hin) as [y Hy].
      destruct (milestone_step_Some _ m fig y Hy) as [s ->].
      change (Ok ?s ≫= ?f) with (f s). cbv beta.
      destruct (IH (add_trace (TScatter s) fig)) as
        [[Hall Hok]|(l1 & m' & l2 & -> & Hall & Hnone & Hraise)].
      * left. split; [by constructor|done].
      * right. exists (m :: l1), m', l2. split; [done|].
        split; [by constructor|]. done.
    + right. exists [], m, ms.
      rewrite (milestone_step_None _ _ _ (task_positions_None _ _ Hnotin)).
      by repeat split.
Qed.


(** X2: lines 65 to 84 have exactly three outcomes.  On the empty table the
    lookup of the column [df['Task']] raises KeyError('Task') before the
    loop starts, whatever the milestones.  On any other table, either every
    milestone names a task of the table and the loop returns a figure, or
    the loop raises KeyError on the task name of the first milestone that
    names no task of the table. *)
Theorem X2_milestone_loop_outcome rows ms fig :
  (rows = [] ∧
   (positions ← make_task_positions rows; milestone_loop positions ms fig)
   = Raise (KeyError "Task")) ∨
  (rows ≠ [] ∧
   Forall (fun m => task m ∈ Task <$> rows) ms ∧
   ∃ fig',
     (positions ← make_task_positions rows; milestone_loop positions ms fig)
     = Ok fig') ∨
  (rows ≠ [] ∧
   ∃ l1 m l2,
     ms = l1 ++ m :: l2 ∧
     Forall (fun m' => task m' ∈ Task <$> rows) l1 ∧
     (task m ∉ Task <$> rows) ∧
     (positions ← make_task_positions rows; milestone_loop positions ms fig)
     = Raise (KeyError (task m))).
Proof.
  destruct rows as [|row rows]; [by left|]. right.
  rewrite make_task_positions_cons.
  change (Ok ?s ≫= ?f) with (f s). cbv beta.
  destruct (milestone_loop_outcome (row :: rows) ms fig) as [[Hall Hok]|Hraise].
  - left. by split.
  - right. by split.
Qed.

(** ** Task positions *)

(** The dict comprehension, part of the way through: a name of the rest of
    the list maps to its last index there, any other name is left as it
    was. *)
Lemma positions_from_lookup names (d : gmap string Z) s name y :
  positions_from d s names !! name = Some y ↔
  (∃ k, y = Z.of_nat (s + k) ∧ names !! k = Some name ∧
        ∀ j, (k < j)%nat → names !! j ≠ Some name) ∨
  ((name ∉ names) ∧ d !! name = Some y).
Proof.
  revert d s. induction names as [|x names IH]; intros d s.
  - split.
    + intros H. right. split; [apply not_elem_of_nil|done].
    + intros [(k & _ & Hk & _)|[_ H]]; [done|done].
  - change (positions_from d s (x :: names))
      with (positions_from (<[x := Z.of_nat s]> d) (S s) names).
    rewrite IH. split.
    + intros [(k & -> & Hk & Hlater)|[Hn Hd]].
      * left. exists (S k). split; [f_equal; lia|]. split; [done|].
        intros [|j] Hj; [lia|]. simpl. apply Hlater. lia.
      * destruct (decide (x = name)) as [->|Hne].
        -- rewrite lookup_insert_eq in Hd. injection Hd as <-.
           left. exists 0%nat. split; [f_equal; lia|]. split; [done|].
           intros [|j] Hj; [lia|]. simpl. intros Hj'.
           apply Hn. by eapply list_elem_of_lookup_2.
        -- rewrite lookup_insert_ne in Hd by done.
           right. split; [|done]. set_solver.
    + intros [(k & -> & Hk & Hlater)|[Hn Hd]].
      * destruct k as [|k]; simpl in Hk.
        -- injection Hk as ->. right. split.
           ++ intros (j & Hj)%list_elem_of_lookup.
              by apply (Hlater (S j)); [lia|].
           ++ rewrite lookup_insert_eq. f_equal. lia.
        -- left. exists k. split; [f_equal; lia|]. split; [done|].
           intros j Hj. apply (Hlater (S j)). lia.
      * right. split; [set_solver|].
        rewrite lookup_insert_ne by set_solver. done.
Qed.

(** X3: task_positions maps a name to the index of the LAST row of the table
    with that name, and has no entry for any other name: when two rows share
    a name, the later one overwrites the earlier. *)
Theorem X3_task_positions_last_index rows name y :
  task_positions rows !! name = Some y ↔
  ∃ k, y = Z.of_nat k ∧ (Task <$> rows) !! k = Some name ∧
       ∀ j, (k < j)%nat → (Task <$> rows) !! j ≠ Some name.
Proof.
  change (task_positions rows) with (positions_from ∅ 0 (Task <$> rows)).
  rewrite positions_from_lookup. split.
  - intros [H|[_ H]]; [exact H|by rewrite lookup_empty in H].
  - intros H. by left.
Qed.

(** ** The rows of the y axis *)

(** The row of a name on the reversed axis mirrors its last index in the
    table. *)
Lemma category_row_last rows fig name k :
  (Task <$> rows) !! k = Some name →
  (∀ j, (k < j)%nat → (Task <$> rows) !! j ≠ Some name) →
  category_row (update_traces_cliponaxis false (update_layout rows fig)) name
  = Some (length rows - 1 - k)%nat.
Proof.
  intros Hk Hlater. unfold category_row. simpl.
  assert (Hlt : (k < length rows)%nat).
  { apply lookup_lt_Some in Hk. by rewrite length_fmap in Hk. }
  assert (Hfind : list_find (fun c => c = name) (reverse (Task <$> rows))
                  = Some ((length rows - 1 - k)%nat, name)).
  { apply list_find_Some. split; [|split; [done|]].
    - rewrite reverse_lookup by (rewrite length_fmap; lia).
      rewrite length_fmap.
      by replace (length rows - S (length rows - 1 - k))%nat with k by lia.
    - intros j y Hj Hjlt ->.
      assert (Hjn : (j < length rows)%nat) by lia.
      rewrite reverse_lookup in Hj by (rewrite length_fmap; lia).
      rewrite length_fmap in Hj.
      apply (Hlater (length rows - S j)%nat); [lia|done]. }
  by rewrite Hfind.
Qed.

(** X12: in the finished figure the y of a milestone marker and the row of
    its task on the y axis mirror each other: for every name with a task
    position y, the name has a row r on the axis and y + r = len(df) - 1. *)
Theorem X12_marker_row_mirror rows ms fig name y :
  build_figure rows ms = Ok fig →
  task_positions rows !! name = Some y →
  ∃ r, category_row fig name = Some r ∧
       y + Z.of_nat r = Z.of_nat (length rows) - 1.
Proof.
  intros (bars & scs & arrows & _ & _ & _ & ->)%build_figure_inv Hy.
  change (task_positions rows) with (positions_from ∅ 0 (Task <$> rows)) in Hy.
  apply positions_from_lookup in Hy as [(k & -> & Hk & Hlater)|[_ Hy]];
    [|by rewrite lookup_empty in Hy].
  exists (length rows - 1 - k)%nat. split; [by apply category_row_last|].
  apply lookup_lt_Some in Hk. rewrite length_fmap in Hk. simpl. lia.
Qed.

(** X12 on the table of the script: "Bug Bot System" has position 3 and
    row 2. *)
Lemma X12_marker_row_mirror_witness :
  ∃ fig r,
    build_figure tasks_data milestones = Ok fig ∧
    task_positions tasks_data !! "Bug Bot System" = Some 3 ∧
    category_row fig "Bug Bot System" = Some r ∧
    3 + Z.of_nat r = Z.of_nat (length tasks_data) - 1.
Proof.
  destruct (build_figure tasks_data milestones) as [fig|] eqn:H;
    [|by vm_compute in H].
  destruct (X12_marker_row_mirror tasks_data milestones fig
              "Bug Bot System" 3 H eq_refl) as (r & Hr & Hsum).
  by exists fig, r.
Defined.

(** ** The legend pass on any figure *)

Lemma set_showlegend_twice v t :
  set_showlegend v (set_showlegend v t) = set_showlegend v t.
Proof. by destruct t. Qed.

Lemma legend_pass_twice seen l :
  legend_pass seen (legend_pass seen l) = legend_pass seen l.
Proof.
  revert seen. induction l as [|t l IH]; intros seen; simpl; [done|].
  destruct (decide (trace_name t ∈ seen)) as [Hin|Hnotin]; simpl.
  - rewrite set_showlegend_name, decide_True by done.
    by rewrite set_showlegend_twice, IH.
  - rewrite decide_False by done. by rewrite IH.
Qed.

(** X4: removing duplicate legend entries a second time changes nothing. *)
Theorem X4_dedupe_legend_idempotent fig :
  dedupe_legend (dedupe_legend fig) = dedupe_legend fig.
Proof. unfold dedupe_legend. simpl. by rewrite legend_pass_twice. Qed.

(** What the pass does to the trace at index [i], for any traces. *)
Lemma legend_pass_lookup_gen seen l i t' :
  legend_pass seen l !! i = Some t' →
  ∃ t, l !! i = Some t ∧
       (t' = t ∨ t' = set_showlegend false t) ∧
       (trace_showlegend t' = true ↔
          trace_showlegend t = true ∧ (trace_name t ∉ seen) ∧
          (∀ j t0, (j < i)%nat → l !! j = Some t0 →
                   trace_name t0 ≠ trace_name t)).
Proof.
  revert seen i. induction l as [|t0 l IH]; intros seen i Hi; [done|].
  simpl in Hi. destruct i as [|i].
  - exists t0. split; [done|].
    destruct (decide (trace_name t0 ∈ seen)) as [Hin|Hnotin];
      simpl in Hi; injection Hi as <-.
    + split; [by right|]. rewrite set_showlegend_showlegend.
      split; [done|]. by intros (_ & ? & _).
    + split; [by left|]. split.
      * intros ?. split; [done|]. split; [done|]. intros j ? ?. lia.
      * by intros [? _].
  - destruct (decide (trace_name t0 ∈ seen)) as [Hin|Hnotin]; simpl in Hi;
      destruct (IH _ _ Hi) as (t & Ht & Hor & Hiff);
      exists t; (split; [done|]); (split; [done|]); rewrite Hiff; clear Hiff.
    + split.
      * intros (Hs & Hn & Hprev). split; [done|]. split; [done|].
        intros [|j] t1 Hj Hl; simpl in Hl.
        -- injection Hl as <-. intros Heq. by rewrite Heq in Hin.
        -- apply (Hprev j); [lia|done].
      * intros (Hs & Hn & Hprev). split; [done|]. split; [done|].
        intros j t1 Hj Hl. apply (Hprev (S j)); [lia|done].
    + split.
      * intros (Hs & Hn & Hprev). split; [done|]. split; [set_solver|].
        intros [|j] t1 Hj Hl; simpl in Hl.
        -- injection Hl as <-. set_solver.
        -- apply (Hprev j); [lia|done].
      * intros (Hs & Hn & Hprev). split; [done|]. split.
        -- assert (trace_name t0 ≠ trace_name t)
             by (apply (Hprev 0%nat); [lia|done]).
           set_solver.
        -- intros j t1 Hj Hl. apply (Hprev (S j)); [lia|done].
Qed.

(** X5: on any list of traces, whatever their showlegend was, the legend pass
    leaves each trace as it is or sets its showlegend to False, and changes
    nothing else.  A trace has showlegend True afterwards exactly when it had
    it before, its name was not in legend_added at the start, and no earlier
    trace has its name; the pass never turns a legend entry on. *)
Theorem X5_legend_pass_any_traces seen l i t' :
  legend_pass seen l !! i = Some t' →
  ∃ t, l !! i = Some t ∧
       (t' = t ∨ t' = set_showlegend false t) ∧
       (trace_showlegend t' = true ↔
          trace_showlegend t = true ∧ (trace_name t ∉ seen) ∧
          (∀ j t0, (j < i)%nat → l !! j = Some t0 →
                   trace_name t0 ≠ trace_name t)).
Proof. apply legend_pass_lookup_gen. Qed.

(** X5 on a figure with a hidden trace first: the hidden trace stays hidden
    and still takes the legend entry of its name from the next trace. *)
Lemma X5_legend_pass_any_traces_witness :
  ∃ t, [set_showlegend false
          (TBar (mkBar [1] ["a"] "h" "#2E8B57" "Frontend" "Frontend" true
                       (1 # 2) (1 # 2) None));
        TBar (mkBar [1] ["b"] "h" "#2E8B57" "Frontend" "Frontend" true
                    (1 # 2) (3 # 2) None)] !! 1%nat = Some t ∧
       (TBar (mkBar [1] ["b"] "h" "#2E8B57" "Frontend" "Frontend" false
                    (1 # 2) (3 # 2) None) = t ∨
        TBar (mkBar [1] ["b"] "h" "#2E8B57" "Frontend" "Frontend" false
                    (1 # 2) (3 # 2) None) = set_showlegend false t).
Proof.
  assert (H : legend_pass ∅
    [set_showlegend false
       (TBar (mkBar [1] ["a"] "h" "#2E8B57" "Frontend" "Frontend" true
                    (1 # 2) (1 # 2) None));
     TBar (mkBar [1] ["b"] "h" "#2E8B57" "Frontend" "Frontend" true
                 (1 # 2) (3 # 2) None)] !! 1%nat
    = Some (TBar (mkBar [1] ["b"] "h" "#2E8B57" "Frontend" "Frontend" false
                        (1 # 2) (3 # 2) None)))
    by (vm_compute; reflexivity).
  destruct (X5_legend_pass_any_traces _ _ _ _ H) as (t & Ht & Hor & _).
  by exists t.
Defined.

(** ** The legend of the finished figure *)

Lemma legend_entries_app l1 l2 :
  legend_entries (l1 ++ l2) = legend_entries l1 ++ legend_entries l2.
Proof. unfold legend_entries. by rewrite filter_app, fmap_app. Qed.

Lemma legend_entries_cliponaxis v l :
  legend_entries (set_cliponaxis v <$> l) = legend_entries l.
Proof.
  unfold legend_entries. induction l as [|t l IH]; [done|].
  rewrite fmap_cons.
  assert (Hs : trace_showlegend (set_cliponaxis v t) = trace_showlegend t)
    by (by destruct t).
  assert (Hn : trace_name (set_cliponaxis v t) = trace_name t)
    by (by destruct t).
  destruct (trace_showlegend t) eqn:Ht.
  - rewrite !filter_cons_True by congruence. rewrite !fmap_cons.
    by rewrite Hn, IH.
  - rewrite !filter_cons_False by congruence. exact IH.
Qed.

Lemma legend_entries_hidden l :
  Forall (fun t => trace_showlegend t = false) l → legend_entries l = [].
Proof.
  unfold legend_entries. induction 1 as [|t l Ht _ IH]; [done|].
  by rewrite filter_cons_False by congruence.
Qed.

(** After the pass over traces that all ask for a legend entry, the entries
    are the names of the traces that were not in [legend_added], each
    once. *)
Lemma legend_entries_pass seen l :
  Forall (fun t => trace_showlegend t = true) l →
  NoDup (legend_entries (legend_pass seen l)) ∧
  ∀ n, n ∈ legend_entries (legend_pass seen l) ↔
       n ∈ trace_name <$> l ∧ n ∉ seen.
Proof.
  unfold legend_entries. intros Hall. revert seen.
  induction Hall as [|t l Ht _ IH]; intros seen; simpl.
  - split; [constructor|]. intros n. split; [by intros ?%elem_of_nil|].
    by intros [?%elem_of_nil _].
  - destruct (decide (trace_name t ∈ seen)) as [Hin|Hnotin].
    + rewrite filter_cons_False
        by (rewrite set_showlegend_showlegend; congruence).
      destruct (IH seen) as [Hnd Hel]. split; [done|].
      intros n. rewrite Hel. set_solver.
    + rewrite filter_cons_True by done. rewrite fmap_cons.
      destruct (IH ({[trace_name t]} ∪ seen)) as [Hnd Hel]. split.
      * constructor; [|done]. rewrite Hel. set_solver.
      * intros n. rewrite elem_of_cons, Hel.
        destruct (decide (n = trace_name t)) as [->|Hne]; set_solver.
Qed.

Lemma scatter_hidden positions ms scs :
  Forall2 (fun m s => scatter_of_milestone positions m = Ok s) ms scs →
  Forall (fun t => trace_showlegend t = false) (TScatter <$> scs).
Proof.
  induction 1 as [|m s ms scs Hs _ IH]; simpl; [constructor|].
  constructor; [|done].
  by apply scatter_of_milestone_Ok in Hs as (y & _ & ->).
Qed.

Lemma bars_shown rows bars :
  Forall2 (fun row b => bar_of_row row = Ok b) rows bars →
  Forall (fun t => trace_showlegend t = true) (TBar <$> bars) ∧
  trace_name <$> (TBar <$> bars) = Type_ <$> rows.
Proof.
  induction 1 as [|row b rows bars Hb _ [IH1 IH2]]; simpl; [done|].
  apply bar_of_row_Ok in Hb as (c & _ & ->). split.
  - by constructor.
  - simpl. by f_equal.
Qed.

(** X6: the legend of the finished figure has one entry per category of the
    table and nothing else: the names of the traces with showlegend True are
    pairwise distinct and are exactly the categories that occur in the
    table.  The milestone markers add no entry. *)
Theorem X6_legend_one_entry_per_category rows ms fig :
  build_figure rows ms = Ok fig →
  NoDup (legend_entries (data fig)) ∧
  ∀ n, n ∈ legend_entries (data fig) ↔ n ∈ Type_ <$> rows.
Proof.
  intros (bars & scs & arrows & HFb & HFs & _ & ->)%build_figure_inv. simpl.
  rewrite legend_entries_cliponaxis, legend_entries_app.
  rewrite (legend_entries_hidden _ (scatter_hidden _ _ _ HFs)), app_nil_r.
  destruct (bars_shown _ _ HFb) as [Hall Hnames].
  destruct (legend_entries_pass ∅ _ Hall) as [Hnd Hel].
  split; [done|]. intros n. rewrite Hel, Hnames. set_solver.
Qed.

(** X6 on the script: four entries for six bars and three markers. *)
Lemma X6_legend_one_entry_per_category_witness :
  ∃ fig, build_figure tasks_data milestones = Ok fig ∧
         legend_entries (data fig) = ["Frontend"; "Backend"; "DevOps"; "Testing"] ∧
         NoDup (legend_entries (data fig)).
Proof.
  destruct (build_figure tasks_data milestones) as [fig|] eqn:H;
    [|by vm_compute in H].
  exists fig. split; [done|].
  split; [|exact (proj1 (X6_legend_one_entry_per_category _ _ _ H))].
  vm_compute in H. by injection H as <-.
Defined.

(** ** The traces of the finished figure *)

Lemma legend_pass_length seen l : length (legend_pass seen l) = length l.
Proof.
  rewrite <- (length_fmap trace_name (legend_pass seen l)).
  by rewrite legend_pass_names, length_fmap.
Qed.

(** X7: the figure that is exported holds, in this order, one Bar trace per
    row of the table and one Scatter trace per milestone, and nothing else.
    Trace i is the bar of row i with every field as the bar loop set it,
    except that cliponaxis is False and showlegend is True only on the first
    row of each category.  Trace len(df) + j is the marker of milestone j, at
    x = week and y = the task's position, never in the legend, with
    cliponaxis False. *)
Theorem X7_exported_traces rows ms fig :
  build_figure rows ms = Ok fig →
  length (data fig) = (length rows + length ms)%nat ∧
  (∀ i row, rows !! i = Some row →
     ∃ c sl,
       color_map !! Type_ row = Some c ∧
       data fig !! i =
         Some (TBar (mkBar [Duration row] [Task row] "h" c (Type_ row)
                           (Type_ row) sl (1 # 2)
                           (inject_Z (Start_Week row) - half)%Q (Some false))) ∧
       (sl = true ↔
          ∀ j row', (j < i)%nat → rows !! j = Some row' →
                    Type_ row' ≠ Type_ row)) ∧
  (∀ j m, ms !! j = Some m →
     ∃ y_pos,
       task_positions rows !! task m = Some y_pos ∧
       data fig !! (length rows + j)%nat =
         Some (TScatter (mkScatter [week m] [y_pos] "markers+text"
                                   (mkMarker "diamond" 12 "#DB4545" "black" 1)
                                   (label m) "top center" 10 "black" false
                                   "Milestone" (Some false)))).
Proof.
  intros (bars & scs & arrows & HFb & HFs & _ & ->)%build_figure_inv. simpl.
  pose proof (Forall2_length _ _ _ HFb) as Hlb.
  pose proof (Forall2_length _ _ _ HFs) as Hls.
  assert (Hlp : length (legend_pass ∅ (TBar <$> bars)) = length rows)
    by (by rewrite legend_pass_length, length_fmap).
  split; [|split].
  - rewrite length_fmap, length_app, Hlp, length_fmap. lia.
  - intros i row Hrow.
    assert (Hi : (i < length rows)%nat) by (by eapply lookup_lt_Some).
    destruct (Forall2_lookup_l _ _ _ _ _ HFb Hrow) as (b & Hb & Hrb).
    apply bar_of_row_Ok in Hrb as (c & Hc & ->).
    destruct (lookup_lt_is_Some_2 (legend_pass ∅ (TBar <$> bars)) i)
      as [t' Ht']; [lia|].
    destruct (legend_pass_lookup_gen _ _ _ _ Ht') as (t & Ht & Hor & Hiff).
    rewrite list_lookup_fmap, Hb in Ht. injection Ht as <-.
    exists c, (trace_showlegend t'). split; [done|]. split.
    + rewrite list_lookup_fmap, lookup_app_l, Ht' by lia.
      by destruct Hor as [-> | ->].
    + rewrite Hiff. simpl. split.
      * intros (_ & _ & Hprev) j row' Hj Hrow'.
        destruct (Forall2_lookup_l _ _ _ _ _ HFb Hrow') as (b' & Hb' & Hrb').
        apply bar_of_row_Ok in Hrb' as (c' & _ & Heq).
        pose proof (Hprev j (TBar b') Hj) as Hp.
        rewrite list_lookup_fmap, Hb' in Hp. specialize (Hp eq_refl).
        by rewrite Heq in Hp.
      * intros Hprev. split; [done|]. split; [set_solver|].
        intros j t0 Hj Ht0. rewrite list_lookup_fmap in Ht0.
        destruct (bars !! j) as [b'|] eqn:Hb'; [|done].
        injection Ht0 as <-.
        destruct (Forall2_lookup_r _ _ _ _ _ HFb Hb') as (row' & Hrow' & Hrb').
        apply bar_of_row_Ok in Hrb' as (c' & _ & ->). simpl.
        by apply (Hprev j).
  - intros j m Hm.
    destruct (Forall2_lookup_l _ _ _ _ _ HFs Hm) as (s & Hs & Hms).
    apply scatter_of_milestone_Ok in Hms as (y & Hy & ->).
    exists y. split; [done|].
    rewrite list_lookup_fmap, lookup_app_r by lia.
    rewrite Hlp. replace (length rows + j - length rows)%nat with j by lia.
    by rewrite list_lookup_fmap, Hs.
Qed.

(** X7 on the script: nine traces. *)
Lemma X7_exported_traces_witness :
  ∃ fig, build_figure tasks_data milestones = Ok fig ∧
         length (data fig) = 9%nat.
Proof.
  destruct (build_figure tasks_data milestones) as [fig|] eqn:H;
    [|by vm_compute in H].
  exists fig. split; [done|].
  exact (proj1 (X7_exported_traces tasks_data milestones fig H)).
Defined.

(** ** The arrows of the finished figure *)

(** The index loop, started at the row after [pre], adds the arrows of the
    adjacent pairs of the rest of the table. *)
Lemma arrow_loop_adjacent_from rest pre fig :
  for_each (arrow_step (pre ++ rest))
           (seq (length pre) (length rest - 1)) fig
  = Ok (add_annotations (adjacent_arrows (length pre) rest) fig).
Proof.
  revert pre fig. induction rest as [|cur rest IH]; intros pre fig.
  - simpl. by rewrite add_annotations_nil.
  - destruct rest as [|next rest].
    + simpl. by rewrite add_annotations_nil.
    + replace (length (cur :: next :: rest) - 1)%nat
        with (S (length (next :: rest) - 1)) by (simpl; lia).
      rewrite <- cons_seq, for_each_cons.
      rewrite (arrow_step_Ok _ _ _ cur next).
      * change (Ok ?s ≫= ?f) with (f s). cbv beta.
        specialize (IH (pre ++ [cur])).
        rewrite <- app_assoc, length_app in IH. simpl in IH.
        replace (length pre + 1)%nat with (S (length pre)) in IH by lia.
        rewrite IH, add_annotations_cons. done.
      * by rewrite lookup_app_r, Nat.sub_diag.
      * rewrite lookup_app_r by lia.
        by replace (length pre + 1 - length pre)%nat with 1%nat by lia.
Qed.

Lemma arrow_loop_adjacent rows fig :
  arrow_loop rows fig = Ok (add_annotations (adjacent_arrows 0 rows) fig).
Proof. exact (arrow_loop_adjacent_from rows [] fig). Qed.

(** X8: the arrow loop, written with indices and [df.iloc], never raises
    IndexError, also on the empty table, where [range(-1)] is empty.  It adds
    the arrows of the adjacent pairs of rows, in order, after the
    annotations already there, and changes neither the traces nor any other
    part of the layout; on a table of at most one row it leaves the figure
    as it is. *)
Theorem X8_arrow_loop_adjacent_pairs rows fig :
  arrow_loop rows fig =
    Ok (mkFigure (data fig)
          (mkLayout (layout_title (layout fig)) (layout_xaxis (layout fig))
                    (layout_yaxis (layout fig)) (layout_barmode (layout fig))
                    (layout_legend (layout fig))
                    (layout_annotations (layout fig) ++ adjacent_arrows 0 rows))) ∧
  ((length rows ≤ 1)%nat → arrow_loop rows fig = Ok fig).
Proof.
  split; [apply arrow_loop_adjacent|].
  intros Hlen. rewrite arrow_loop_adjacent.
  destruct rows as [|r0 [|r1 rows]]; simpl in Hlen; [| |lia];
    simpl; by rewrite add_annotations_nil.
Qed.

(** X8 on a table of one row. *)
Lemma X8_arrow_loop_adjacent_pairs_witness :
  arrow_loop [mkTask "Village Render" 1 1 "Frontend" "Phaser.js setup"]
             Figure_new = Ok Figure_new.
Proof.
  apply (proj2 (X8_arrow_loop_adjacent_pairs
                  [mkTask "Village Render" 1 1 "Frontend" "Phaser.js setup"]
                  Figure_new)).
  simpl. lia.
Defined.

Lemma build_figure_annotations rows ms fig :
  build_figure rows ms = Ok fig →
  layout_annotations (layout fig) = adjacent_arrows 0 rows.
Proof.
  unfold build_figure. intros H.
  destruct (bar_loop rows Figure_new) as [fig1|] eqn:H1; [|done].
  destruct (bar_loop_inv _ _ _ H1) as (bars & _ & ->).
  change (Ok ?s ≫= ?f) with (f s) in H. cbv beta in H.
  destruct (make_task_positions rows) as [positions|] eqn:Hpos; [|done].
  change (Ok ?s ≫= ?f) with (f s) in H. cbv beta in H.
  destruct (milestone_loop _ ms _) as [fig2|] eqn:H2; [|done].
  destruct (milestone_loop_inv _ _ _ _ H2) as (scs & _ & ->).
  change (Ok ?s ≫= ?f) with (f s) in H. cbv beta in H.
  rewrite arrow_loop_adjacent in H. by injection H as <-.
Qed.

(** ** Milestones and the rest of the figure *)

Lemma cliponaxis_scatters v scs :
  ∃ scs', set_cliponaxis v <$> (TScatter <$> scs) = TScatter <$> scs' ∧
          length scs' = length scs.
Proof.
  induction scs as [|s scs (scs' & IH & Hlen)].
  - by exists [].
  - eexists (_ :: scs'). rewrite !fmap_cons, IH. simpl.
    split; [reflexivity|]. by rewrite Hlen.
Qed.

(** X11: the milestones only add marker traces.  The figure built with any
    milestones is the figure built without milestones, with one Scatter
    trace per milestone appended: the bars, their legend entries, the arrows
    and the layout do not depend on the milestones. *)
Theorem X11_milestones_only_add_markers rows ms fig :
  build_figure rows ms = Ok fig →
  ∃ fig0 scs,
    build_figure rows [] = Ok fig0 ∧
    data fig = data fig0 ++ (TScatter <$> scs) ∧
    length scs = length ms ∧
    layout fig = layout fig0.
Proof.
  intros H. pose proof H as Hann%build_figure_annotations.
  pose proof H as (bars & scs & arrows & HFb & HFs & _ & Hfig)%build_figure_inv.
  assert (H0 : ∃ fig0, build_figure rows [] = Ok fig0).
  { unfold build_figure in *.
    destruct (bar_loop rows Figure_new) as [fig1|]; [|done].
    change (Ok ?s ≫= ?f) with (f s) in *. cbv beta in *.
    destruct (make_task_positions rows) as [positions|]; [|done].
    change (Ok ?s ≫= ?f) with (f s). cbv beta.
    change (milestone_loop positions [] (dedupe_legend fig1))
      with (Ok (dedupe_legend fig1)).
    change (Ok ?s ≫= ?f) with (f s). cbv beta.
    rewrite arrow_loop_adjacent. by eexists. }
  destruct H0 as [fig0 H0]. pose proof H0 as Hann0%build_figure_annotations.
  pose proof H0 as (bars0 & scs0 & arrows0 & HFb0 & HFs0 & _ & Hfig0)
    %build_figure_inv.
  apply Forall2_nil_inv_l in HFs0 as ->.
  assert (bars0 = bars) as ->.
  { clear -HFb HFb0. revert bars0 HFb0.
    induction HFb as [|row b rows bars Hb _ IH]; intros bars0 HFb0.
    - by apply Forall2_nil_inv_l in HFb0.
    - apply Forall2_cons_inv_l in HFb0 as (b0 & bars1 & Hb0 & HF1 & ->).
      rewrite Hb in Hb0. injection Hb0 as <-. f_equal. by apply IH. }
  destruct (cliponaxis_scatters false scs) as (scs' & Hscs & Hlen).
  exists fig0, scs'. split; [done|].
  clear H H0. subst fig fig0. simpl in *.
  rewrite fmap_app, Hscs, app_nil_r. split; [done|].
  split; [rewrite Hlen; symmetry; by eapply Forall2_length|].
  by rewrite Hann, Hann0.
Qed.

(** X11 on the script. *)
Lemma X11_milestones_only_add_markers_witness :
  ∃ fig fig0 scs,
    build_figure tasks_data milestones = Ok fig ∧
    build_figure tasks_data [] = Ok fig0 ∧
    data fig = data fig0 ++ (TScatter <$> scs) ∧
    length scs = length milestones ∧
    layout fig = layout fig0.
Proof.
  destruct (build_figure tasks_data milestones) as [fig|] eqn:H;
    [|by vm_compute in H].
  destruct (X11_milestones_only_add_markers _ _ _ H) as (fig0 & scs & Hrest).
  by exists fig, fig0, scs.
Defined.

(** ** The message and the files *)

(** X10: for any table, any milestones and any backend, the final message
    is printed exactly when the script ends without an exception, and then
    both files were written before it, the PNG first; the SVG is never
    written without the PNG. *)
Theorem X10_message_after_both_writes kaleido proc rows ms r log :
  script kaleido proc rows ms [] = (r, log) →
  (Stdout "Saved gantt_chart.png and gantt_chart.svg" ∈ log ↔ r = Ok tt) ∧
  (r = Ok tt ↔
   log = [FileWrite "gantt_chart.png"; FileWrite "gantt_chart.svg";
          Stdout "Saved gantt_chart.png and gantt_chart.svg"]) ∧
  (FileWrite "gantt_chart.svg" ∈ log → FileWrite "gantt_chart.png" ∈ log).
Proof.
  unfold script, IO_bind, IO_lift, write_image, print.
  destruct (build_figure rows ms) as [fig|e0].
  - destruct (kaleido fig "gantt_chart.png" None) as [e1|]; simpl.
    + intros [= <- <-]. split; [|split]; [split| |]; set_solver.
    + destruct (kaleido fig "gantt_chart.svg" (Some "svg")) as [e2|]; simpl.
      * intros [= <- <-]. split; [|split]; [split|split|]; set_solver.
      * intros [= <- <-]. split; [|split]; [split| |]; set_solver.
  - intros [= <- <-]. split; [|split]; [split| |]; set_solver.
Qed.

(** X10 with a backend that cannot write the SVG: the PNG is there, the
    message is not. *)
Lemma X10_message_after_both_writes_witness :
  ∃ r log,
    script (fun _ file _ =>
              if decide (file = "gantt_chart.svg")
              then Some (OSError "Permission denied") else None)
           (mkProcess ["scripts/gantt.py"] ∅) tasks_data milestones []
      = (r, log) ∧
    log = [FileWrite "gantt_chart.png"] ∧
    (Stdout "Saved gantt_chart.png and gantt_chart.svg" ∈ log ↔ r = Ok tt) ∧
    r ≠ Ok tt.
Proof.
  destruct build_figure_Ok as [fig Hfig].
  assert (Hrun : script (fun _ file _ =>
                   if decide (file = "gantt_chart.svg")
                   then Some (OSError "Permission denied") else None)
                 (mkProcess ["scripts/gantt.py"] ∅) tasks_data milestones []
               = (Raise (OSError "Permission denied"),
                  [FileWrite "gantt_chart.png"])).
  { unfold script, IO_bind, IO_lift, write_image. by rewrite Hfig. }
  destruct (X10_message_after_both_writes _ _ _ _ _ _ Hrun) as (Hmsg & _).
  eexists _, _. split; [exact Hrun|]. split; [done|]. split; [exact Hmsg|done].
Defined.

(** ** Bars and week ticks *)

(** X13: on a row of the exact range, the bar of the row is centred on the
    tick of the row's start week exactly when the row lasts one week; in
    general its middle is the start week plus half of the duration minus
    one. *)
Theorem X13_bar_centred_on_week row b lo hi :
  in_exact_range row →
  bar_of_row row = Ok b → bar_span b = [(lo, hi)] →
  ((lo + hi) / 2 ==
     inject_Z (Start_Week row) + (inject_Z (Duration row) - 1) / 2)%Q ∧
  (((lo + hi) / 2 == inject_Z (Start_Week row))%Q ↔ Duration row = 1).
Proof.
  intros _ (c & _ & ->)%bar_of_row_Ok [= <- <-].
  unfold half, Qeq, Qdiv, Qmult, Qinv, Qplus, Qminus, Qopp, inject_Z.
  simpl. split; [lia|]. split; lia.
Qed.

(** X13 on the first row of the script: the bar from 0.5 to 1.5 is centred
    on week 1. *)
Lemma X13_bar_centred_on_week_witness :
  in_exact_range (mkTask "Village Render" 1 1 "Frontend" "Phaser.js setup") ∧
  ∃ b lo hi,
    bar_of_row (mkTask "Village Render" 1 1 "Frontend" "Phaser.js setup")
      = Ok b ∧
    bar_span b = [(lo, hi)] ∧
    ((lo + hi) / 2 == inject_Z 1)%Q.
Proof.
  assert (Hrange : in_exact_range
            (mkTask "Village Render" 1 1 "Frontend" "Phaser.js setup"))
    by (unfold in_exact_range; simpl; lia).
  split; [exact Hrange|].
  eexists _, _, _. split; [reflexivity|]. split; [reflexivity|].
  refine (proj2 (proj2 (X13_bar_centred_on_week
            (mkTask "Village Render" 1 1 "Frontend" "Phaser.js setup")
            _ _ _ Hrange eq_refl eq_refl)) eq_refl).
Defined.

(** ** The outcomes of the construction *)

Lemma build_figure_outcome rows ms :
  (rows ≠ [] ∧
   Forall (fun row => is_Some (color_map !! Type_ row)) rows ∧
   Forall (fun m => task m ∈ Task <$> rows) ms ∧
   ∃ fig, build_figure rows ms = Ok fig) ∨
  (∃ k, build_figure rows ms = Raise (KeyError k) ∧
        (rows = [] ∨
         ¬ Forall (fun row => is_Some (color_map !! Type_ row)) rows ∨
         ¬ Forall (fun m => task m ∈ Task <$> rows) ms)).
Proof.
  unfold build_figure.
  destruct (bar_loop_outcome rows Figure_new) as
    [[Hall [fig1 ->]]|(l1 & row & l2 & -> & _ & Hnone & ->)].
  - change (Ok ?s ≫= ?f) with (f s). cbv beta.
    destruct rows as [|row rows].
    + right. exists "Task". split; [done|]. by left.
    + rewrite make_task_positions_cons.
      change (Ok ?s ≫= ?f) with (f s). cbv beta.
      destruct (milestone_loop_outcome (row :: rows) ms (dedupe_legend fig1))
        as [[Hms [fig2 ->]]|(m1 & m & m2 & -> & _ & Hnotin & ->)].
      * left. change (Ok ?s ≫= ?f) with (f s). cbv beta.
        rewrite arrow_loop_adjacent. split; [done|]. split; [done|].
        split; [done|]. by eexists.
      * right. exists (task m). split; [done|]. right. right.
        intros [_ [? _]%Forall_cons]%Forall_app. done.
  - right. exists (Type_ row). split; [done|]. right. left.
    intros [_ [[c Hc] _]%Forall_cons]%Forall_app. by rewrite Hnone in Hc.
Qed.

(** X14: the construction of the figure returns a figure exactly when the
    table is not empty, every category of the table is a key of the colour
    map and every milestone names a task of the table.  In every other case
    it raises a KeyError, never an IndexError; on the empty table the
    KeyError is that of the column 'Task', and the script ends with it
    before anything is written or printed. *)
Theorem X14_build_figure_outcome kaleido proc rows ms :
  ((∃ fig, build_figure rows ms = Ok fig) ↔
   rows ≠ [] ∧
   Forall (fun row => is_Some (color_map !! Type_ row)) rows ∧
   Forall (fun m => task m ∈ Task <$> rows) ms) ∧
  (∀ e, build_figure rows ms = Raise e → ∃ k, e = KeyError k) ∧
  build_figure [] ms = Raise (KeyError "Task") ∧
  script kaleido proc [] ms [] = (Raise (KeyError "Task"), []).
Proof.
  split; [|split; [|split; done]].
  - destruct (build_figure_outcome rows ms) as
      [(Hne & Hc & Hm & Hok)|(k & Hk & Hbad)].
    + split; [done|]. intros _. exact Hok.
    + rewrite Hk. split; [by intros [fig ?]|].
      intros (Hne & Hc & Hm). by destruct Hbad as [?|[?|?]].
  - intros e He.
    destruct (build_figure_outcome rows ms) as
      [(_ & _ & _ & [fig Hok])|(k & Hk & _)].
    + by rewrite Hok in He.
    + rewrite Hk in He. injection He as <-. by exists k.
Qed.
